(** * Entity tracking (src/local.ts)

    A shallow embedding of the entity tracker: the unit conversions, the
    entity table and the packet handlers, followed by the properties proved
    about them.

    Reading conventions.
    - A JavaScript [number] that carries a coordinate, an angle or a velocity
      is read as a real number: the arithmetic is the exact one, and rounding
      to binary64, infinities and NaN are outside the model.  Module
      [Binary64] replays the conversion that uses only [*] and [/] on the
      kernel's binary64 floats.
    - Entity ids and entity type codes are integers on the wire; they are [Z].
    - Entities are objects: the table [entities] maps an id to a reference,
      and the fields live in a heap indexed by references. *)

From Stdlib Require Import Reals Lra Lia ZArith.
From Stdlib Require Floats.PrimFloat.
From stdpp Require Import base option list gmap strings.

Definition number : Type := R.

Bind Scope R_scope with number.

(** ** Conversion (region "Conversion" of the source) *)

Module Conversion.
Local Open Scope R_scope.

(** Truncation toward zero: the integer quotient that [%] uses. *)
Definition trunc (x : number) : Z :=
  if Rle_dec 0 x then Int_part x else (- Int_part (- x))%Z.

(** The [%] operator on numbers: [n - d * q] where [q] is [n / d] truncated
    toward zero, so the result has the sign of [n]. *)
Definition rem (n d : number) : number := n - d * IZR (trunc (n / d)).

Definition euclidianMod (numerator denominator : number) : number :=
  let result := rem numerator denominator in
  if Rlt_dec result 0 then result + denominator else result.

Definition PI : number := Rtrigo1.PI.
Definition TAU : number := 2 * PI.
Definition DEG_TO_RAD : number := TAU / 360.
Definition RAD_TO_DEG : number := 360 / TAU.
Definition NOTCH_BYTE_TO_RAD : number := 360 / 256.
Definition NOTCH_BYTE_VELOCITY_TO_BPS : number := 1 / 8000.

Definition toRadians (angle : number) : number := angle * DEG_TO_RAD.

Definition toDegrees (angle : number) : number := angle * RAD_TO_DEG.

Definition decodeNotchianYaw (deg : number) : number :=
  euclidianMod (PI - toRadians deg) TAU.

Definition decodeNotchianYawByte (byte : number) : number :=
  decodeNotchianYaw (byte * NOTCH_BYTE_TO_RAD).

Definition decodeNotchianPitch (deg : number) : number :=
  euclidianMod (toRadians (- deg) + PI) TAU - PI.

Definition decodeNotchianPitchByte (byte : number) : number :=
  decodeNotchianPitch (byte * NOTCH_BYTE_TO_RAD).

Definition decodeNotchianVelocityByte (byte : number) : number :=
  byte * NOTCH_BYTE_VELOCITY_TO_BPS.

End Conversion.

(** ** Data *)

(** Modelled from the spec: the vector class behind [entity.position] and
    [entity.velocity] is not under src/.  A mutable 3D vector with an
    absolute [set] and a relative [translate]; both are written here as the
    new contents of the vector they are called on. *)
Module Vec3.

Record Vec3 : Type := Build { x : number; y : number; z : number }.

Definition set (x' y' z' : number) (v : Vec3) : Vec3 := Build x' y' z'.

Definition translate (dx dy dz : number) (v : Vec3) : Vec3 :=
  Build (x v + dx)%R (y v + dy)%R (z v + dz)%R.

Definition set_x (x' : number) (v : Vec3) : Vec3 := Build x' (y v) (z v).
Definition set_y (y' : number) (v : Vec3) : Vec3 := Build (x v) y' (z v).
Definition set_z (z' : number) (v : Vec3) : Vec3 := Build (x v) (y v) z'.

End Vec3.

Abbreviation Vec3 := Vec3.Vec3.

(** Modelled from the spec: the entity class (../prismarine.entity/local.js)
    is not under src/.  The fields are those the handlers assign; a field
    that a fresh entity leaves unset is [None], and [new id] is the fresh
    entity: valid, at the origin, at rest. *)
Module Entity.

Record Entity : Type := Build {
  id : Z;
  uuid : option string;
  type : option string;
  entityType : option Z;
  mobType : option string;
  name : option string;
  displayName : option string;
  kind : option string;
  height : option number;
  width : option number;
  position : Vec3;
  yaw : number;
  pitch : number;
  velocity : Vec3;
  isValid : bool }.

Definition new (id : Z) : Entity :=
  {| id := id; uuid := None; type := None; entityType := None;
     mobType := None; name := None; displayName := None; kind := None;
     height := None; width := None; position := Vec3.Build 0%R 0%R 0%R;
     yaw := 0%R; pitch := 0%R; velocity := Vec3.Build 0%R 0%R 0%R;
     isValid := true |}.

(** Field assignments [entity.f = v]. *)
Definition set_uuid (v : option string) (e : Entity) : Entity :=
  {| id := id e; uuid := v; type := type e; entityType := entityType e;
     mobType := mobType e; name := name e; displayName := displayName e;
     kind := kind e; height := height e; width := width e;
     position := position e; yaw := yaw e; pitch := pitch e;
     velocity := velocity e; isValid := isValid e |}.

Definition set_type (v : option string) (e : Entity) : Entity :=
  {| id := id e; uuid := uuid e; type := v; entityType := entityType e;
     mobType := mobType e; name := name e; displayName := displayName e;
     kind := kind e; height := height e; width := width e;
     position := position e; yaw := yaw e; pitch := pitch e;
     velocity := velocity e; isValid := isValid e |}.

Definition set_entityType (v : option Z) (e : Entity) : Entity :=
  {| id := id e; uuid := uuid e; type := type e; entityType := v;
     mobType := mobType e; name := name e; displayName := displayName e;
     kind := kind e; height := height e; width := width e;
     position := position e; yaw := yaw e; pitch := pitch e;
     velocity := velocity e; isValid := isValid e |}.

Definition set_mobType (v : option string) (e : Entity) : Entity :=
  {| id := id e; uuid := uuid e; type := type e; entityType := entityType e;
     mobType := v; name := name e; displayName := displayName e;
     kind := kind e; height := height e; width := width e;
     position := position e; yaw := yaw e; pitch := pitch e;
     velocity := velocity e; isValid := isValid e |}.

Definition set_name (v : option string) (e : Entity) : Entity :=
  {| id := id e; uuid := uuid e; type := type e; entityType := entityType e;
     mobType := mobType e; name := v; displayName := displayName e;
     kind := kind e; height := height e; width := width e;
     position := position e; yaw := yaw e; pitch := pitch e;
     velocity := velocity e; isValid := isValid e |}.

Definition set_displayName (v : option string) (e : Entity) : Entity :=
  {| id := id e; uuid := uuid e; type := type e; entityType := entityType e;
     mobType := mobType e; name := name e; displayName := v; kind := kind e;
     height := height e; width := width e; position := position e;
     yaw := yaw e; pitch := pitch e; velocity := velocity e;
     isValid := isValid e |}.

Definition set_kind (v : option string) (e : Entity) : Entity :=
  {| id := id e; uuid := uuid e; type := type e; entityType := entityType e;
     mobType := mobType e; name := name e; displayName := displayName e;
     kind := v; height := height e; width := width e; position := position e;
     yaw := yaw e; pitch := pitch e; velocity := velocity e;
     isValid := isValid e |}.

Definition set_height (v : option number) (e : Entity) : Entity :=
  {| id := id e; uuid := uuid e; type := type e; entityType := entityType e;
     mobType := mobType e; name := name e; displayName := displayName e;
     kind := kind e; height := v; width := width e; position := position e;
     yaw := yaw e; pitch := pitch e; velocity := velocity e;
     isValid := isValid e |}.

Definition set_width (v : option number) (e : Entity) : Entity :=
  {| id := id e; uuid := uuid e; type := type e; entityType := entityType e;
     mobType := mobType e; name := name e; displayName := displayName e;
     kind := kind e; height := height e; width := v; position := position e;
     yaw := yaw e; pitch := pitch e; velocity := velocity e;
     isValid := isValid e |}.

Definition set_position (v : Vec3) (e : Entity) : Entity :=
  {| id := id e; uuid := uuid e; type := type e; entityType := entityType e;
     mobType := mobType e; name := name e; displayName := displayName e;
     kind := kind e; height := height e; width := width e; position := v;
     yaw := yaw e; pitch := pitch e; velocity := velocity e;
     isValid := isValid e |}.

Definition set_yaw (v : number) (e : Entity) : Entity :=
  {| id := id e; uuid := uuid e; type := type e; entityType := entityType e;
     mobType := mobType e; name := name e; displayName := displayName e;
     kind := kind e; height := height e; width := width e;
     position := position e; yaw := v; pitch := pitch e;
     velocity := velocity e; isValid := isValid e |}.

Definition set_pitch (v : number) (e : Entity) : Entity :=
  {| id := id e; uuid := uuid e; type := type e; entityType := entityType e;
     mobType := mobType e; name := name e; displayName := displayName e;
     kind := kind e; height := height e; width := width e;
     position := position e; yaw := yaw e; pitch := v;
     velocity := velocity e; isValid := isValid e |}.

Definition set_velocity (v : Vec3) (e : Entity) : Entity :=
  {| id := id e; uuid := uuid e; type := type e; entityType := entityType e;
     mobType := mobType e; name := name e; displayName := displayName e;
     kind := kind e; height := height e; width := width e;
     position := position e; yaw := yaw e; pitch := pitch e; velocity := v;
     isValid := isValid e |}.

Definition set_isValid (v : bool) (e : Entity) : Entity :=
  {| id := id e; uuid := uuid e; type := type e; entityType := entityType e;
     mobType := mobType e; name := name e; displayName := displayName e;
     kind := kind e; height := height e; width := width e;
     position := position e; yaw := yaw e; pitch := pitch e;
     velocity := velocity e; isValid := v |}.

End Entity.

Abbreviation Entity := Entity.Entity.

(** Modelled from the spec: the type registry (../prismarine.registry/local.js)
    is not under src/.  A read-only lookup from the numeric type code to the
    classification metadata, and the feature query. *)
Module Registry.

Record EntityData : Type := {
  type : string;
  id : Z;
  name : string;
  displayName : string;
  category : string;
  height : number;
  width : number }.

Record Registry : Type := {
  entities : gmap Z EntityData;
  supportFeature : string -> bool }.

End Registry.

Abbreviation Registry := Registry.Registry.

(** *** Packets (region "Packet" of the source) *)

Module SpawnEntity.
Record DownstreamSpawnEntityPacketData : Type := {
  entityId : Z;
  objectUUID : string;
  type : Z;
  x : number;
  y : number;
  z : number;
  pitch : number;
  yaw : number;
  headPitch : number;
  objectData : number;
  velocityX : number;
  velocityY : number;
  velocityZ : number }.
End SpawnEntity.

Module EntityVelocity.
Record DownstreamEntityVelocityPacketData : Type := {
  entityId : Z;
  velocityX : number;
  velocityY : number;
  velocityZ : number }.
End EntityVelocity.

Module EntityDestroy.
Record DownstreamEntityDestroyPacketData : Type := {
  entityIds : list Z }.
End EntityDestroy.

Module RelativeEntityMove.
Record DownstreamRelativeEntityMovePacketData : Type := {
  entityId : Z;
  dX : number;
  dY : number;
  dZ : number;
  yaw : number;
  pitch : number;
  onGround : bool }.
End RelativeEntityMove.

Module EntityLook.
Record DownstreamEntityLookPacketData : Type := {
  entityId : Z;
  yaw : number;
  pitch : number;
  onGround : bool }.
End EntityLook.

Module EntityTeleport.
Record DownstreamEntityTeleportPacketData : Type := {
  entityId : Z;
  x : number;
  y : number;
  z : number;
  yaw : number;
  pitch : number;
  onGround : bool }.
End EntityTeleport.

Module PhysicsState.
Record PacketPhysicsState : Type := {
  x : number;
  y : number;
  z : number;
  yaw : number;
  pitch : number;
  velocityX : number;
  velocityY : number;
  velocityZ : number }.
End PhysicsState.

Export SpawnEntity(DownstreamSpawnEntityPacketData).
Export EntityVelocity(DownstreamEntityVelocityPacketData).
Export EntityDestroy(DownstreamEntityDestroyPacketData).
Export RelativeEntityMove(DownstreamRelativeEntityMovePacketData).
Export EntityLook(DownstreamEntityLookPacketData).
Export EntityTeleport(DownstreamEntityTeleportPacketData).
Export PhysicsState(PacketPhysicsState).

(** A spawn packet is passed where a [PacketPhysicsState] is expected: the
    pose is the packet's fields of the same names. *)
Definition spawn_pose (data : DownstreamSpawnEntityPacketData) : PacketPhysicsState :=
  {| PhysicsState.x := SpawnEntity.x data;
     PhysicsState.y := SpawnEntity.y data;
     PhysicsState.z := SpawnEntity.z data;
     PhysicsState.yaw := SpawnEntity.yaw data;
     PhysicsState.pitch := SpawnEntity.pitch data;
     PhysicsState.velocityX := SpawnEntity.velocityX data;
     PhysicsState.velocityY := SpawnEntity.velocityY data;
     PhysicsState.velocityZ := SpawnEntity.velocityZ data |}.

(** The move+look handler passes its packet to the look handler: the look
    data is the packet's fields of the same names. *)
Definition move_look (data : DownstreamRelativeEntityMovePacketData) : DownstreamEntityLookPacketData :=
  {| EntityLook.entityId := RelativeEntityMove.entityId data;
     EntityLook.yaw := RelativeEntityMove.yaw data;
     EntityLook.pitch := RelativeEntityMove.pitch data;
     EntityLook.onGround := RelativeEntityMove.onGround data |}.

(** ** The tracker's state *)

(** A reference to an entity object. *)
Definition ref : Type := positive.

(** What [edt.emit] passes to the subscribers: the event name with its
    arguments [(entity, packet)], as the [EventMap] of the source types them. *)
Inductive Event : Type :=
  | entity_spawn (entity : ref) (packet : DownstreamSpawnEntityPacketData)
  | entity_destroy (entity : ref) (packet : DownstreamEntityDestroyPacketData)
  | entity_velocity (entity : ref) (packet : DownstreamEntityVelocityPacketData)
  | entity_position (entity : ref)
      (packet : DownstreamRelativeEntityMovePacketData + DownstreamEntityTeleportPacketData)
  | entity_look (entity : ref) (packet : DownstreamEntityLookPacketData)
  | entity_teleport (entity : ref) (packet : DownstreamEntityTeleportPacketData).

Definition event_entity (ev : Event) : ref :=
  match ev with
  | entity_spawn entity _ | entity_destroy entity _ | entity_velocity entity _
  | entity_position entity _ | entity_look entity _ | entity_teleport entity _ => entity
  end.

(** One call of [edt.emit]: the event, and what the subscribers find when
    they are called: the fields of the entity object ([seen]) and, through
    [getEntityById], the table of tracked ids ([table]). *)
Record Emission : Type := {
  event : Event;
  seen : option Entity;
  table : gmap Z ref }.

(** [heap] holds the entity objects, [entities] is the module's
    [Map<number, Entity>], [emitted] lists the calls of [edt.emit], oldest
    first. *)
Record State : Type := {
  heap : gmap ref Entity;
  entities : gmap Z ref;
  emitted : list Emission }.

Definition initial : State := {| heap := ∅; entities := ∅; emitted := [] |}.

(** Every reference in the table points to an allocated object, created for
    that id. *)
Definition wf (st : State) : Prop :=
  ∀ (id : Z) (entity : ref), entities st !! id = Some entity →
    ∃ e, heap st !! entity = Some e ∧ Entity.id e = id.

(** *** Handlers run in a state and complete normally or throw *)

Inductive Error : Type :=
  | UnknownEntity (entityId : Z).

Inductive Completion (A : Type) : Type :=
  | Normal (a : A)
  | Throw (err : Error).

Arguments Normal {A} a.
Arguments Throw {A} err.

Definition M (A : Type) : Type := State → Completion A * State.

#[global] Instance M_ret : MRet M := λ A a st, (Normal a, st).

#[global] Instance M_bind : MBind M := λ A B f m st,
  match m st with
  | (Normal a, st') => f a st'
  | (Throw err, st') => (Throw err, st')
  end.

#[global] Instance M_throw : MThrow Error M := λ A err st, (Throw err, st).

(** [entities.get(id)] *)
Definition entities_get (id : Z) : M (option ref) :=
  λ st, (Normal (entities st !! id), st).

(** [entities.set(id, entity)] *)
Definition entities_set (id : Z) (entity : ref) : M unit :=
  λ st, (Normal (), {| heap := heap st; entities := <[id := entity]> (entities st);
                       emitted := emitted st |}).

(** [entities.delete(id)] *)
Definition entities_delete (id : Z) : M unit :=
  λ st, (Normal (), {| heap := heap st; entities := delete id (entities st);
                       emitted := emitted st |}).

(** [new Entity(id)]: a fresh object. *)
Definition new_Entity (id : Z) : M ref :=
  λ st, let entity := fresh (dom (heap st)) in
        (Normal entity, {| heap := <[entity := Entity.new id]> (heap st);
                           entities := entities st; emitted := emitted st |}).

(** An assignment to a field of the object [entity]. *)
Definition assign (entity : ref) (f : Entity → Entity) : M unit :=
  λ st, (Normal (), {| heap := alter f entity (heap st); entities := entities st;
                       emitted := emitted st |}).

(** Modelled from the spec: the event utility (../../util/events.js) is not
    under src/.  [await edt.emit(name, entity, packet)] calls the subscribers
    and returns when they are done; the call is recorded. *)
Definition emit (ev : Event) : M unit :=
  λ st, (Normal (), {| heap := heap st; entities := entities st;
                       emitted := emitted st ++
                         [{| event := ev; seen := heap st !! event_entity ev;
                             table := entities st |}] |}).

(** [entity === undefined] for a value of type [Entity]: an object reference
    is never [undefined]. *)
Definition is_undefined (entity : ref) : bool := false.

(** [for (const a of l) body] *)
Fixpoint for_of {A : Type} (l : list A) (body : A → M unit) : M unit :=
  match l with
  | [] => mret ()
  | a :: l' => body a ;; for_of l' body
  end.

Definition getEntity (id : Z) : M ref :=
  entity ← entities_get id;
  match entity with
  | None =>
      entity ← new_Entity id;
      entities_set id entity ;;
      mret entity
  | Some entity => mret entity
  end.

(** [getEntityById] of the exported plugin object: the entity tracked under
    [id], if any, given by its fields. *)
Definition getEntityById (st : State) (id : Z) : option Entity :=
  entities st !! id ≫= λ entity, heap st !! entity.

Section Handlers.

Variable registry : Registry.

Import Conversion.

Definition setEntityDataByType (entity : ref) (typeId : Z) : M unit :=
  let data := Registry.entities registry !! typeId in
  match data with
  | Some data =>
      assign entity (Entity.set_type (Some (Registry.type data))) ;;
      assign entity (Entity.set_displayName (Some (Registry.displayName data))) ;;
      assign entity (Entity.set_entityType (Some (Registry.id data))) ;;
      assign entity (Entity.set_name (Some (Registry.name data))) ;;
      assign entity (Entity.set_kind (Some (Registry.category data))) ;;
      assign entity (Entity.set_height (Some (Registry.height data))) ;;
      assign entity (Entity.set_width (Some (Registry.width data)))
  | None =>
      assign entity (Entity.set_type (Some "other")) ;;
      assign entity (Entity.set_entityType (Some typeId)) ;;
      assign entity (Entity.set_mobType (Some "unknown")) ;;
      assign entity (Entity.set_displayName (Some "unknown")) ;;
      assign entity (Entity.set_name (Some "unknown")) ;;
      assign entity (Entity.set_kind (Some "unknown"))
  end.

(** [entity.position.set(x, y, z)] and [entity.position.translate(dx, dy, dz)] *)
Definition position_set (entity : ref) (x y z : number) : M unit :=
  assign entity (λ e, Entity.set_position (Vec3.set x y z (Entity.position e)) e).

Definition position_translate (entity : ref) (dx dy dz : number) : M unit :=
  assign entity (λ e, Entity.set_position (Vec3.translate dx dy dz (Entity.position e)) e).

(** [entity.velocity.x = v] and its siblings *)
Definition velocity_set_x (entity : ref) (v : number) : M unit :=
  assign entity (λ e, Entity.set_velocity (Vec3.set_x v (Entity.velocity e)) e).

Definition velocity_set_y (entity : ref) (v : number) : M unit :=
  assign entity (λ e, Entity.set_velocity (Vec3.set_y v (Entity.velocity e)) e).

Definition velocity_set_z (entity : ref) (v : number) : M unit :=
  assign entity (λ e, Entity.set_velocity (Vec3.set_z v (Entity.velocity e)) e).

Definition setEntityPose (entity : ref) (pose : PacketPhysicsState) : M unit :=
  (if Registry.supportFeature registry "fixedPointPosition" then
     position_set entity (PhysicsState.x pose / 32)%R (PhysicsState.y pose / 32)%R
                         (PhysicsState.z pose / 32)%R
   else if Registry.supportFeature registry "doublePosition" then
     position_set entity (PhysicsState.x pose) (PhysicsState.y pose) (PhysicsState.z pose)
   else mret ()) ;;
  assign entity (Entity.set_yaw (decodeNotchianYawByte (PhysicsState.yaw pose))) ;;
  assign entity (Entity.set_pitch (decodeNotchianPitchByte (PhysicsState.pitch pose))) ;;
  velocity_set_x entity (decodeNotchianVelocityByte (PhysicsState.velocityX pose)) ;;
  velocity_set_y entity (decodeNotchianVelocityByte (PhysicsState.velocityY pose)) ;;
  velocity_set_z entity (decodeNotchianVelocityByte (PhysicsState.velocityZ pose)).

Definition addEntity (id : Z) (uuid : string) (type : Z) (pose : PacketPhysicsState) : M unit :=
  entity ← getEntity id;
  assign entity (Entity.set_uuid (Some uuid)) ;;
  setEntityDataByType entity type ;;
  setEntityPose entity pose.

(** *** Region "Proxy": one handler per packet kind *)

Definition on_spawn_entity (packet : DownstreamSpawnEntityPacketData) : M unit :=
  addEntity (SpawnEntity.entityId packet) (SpawnEntity.objectUUID packet)
            (SpawnEntity.type packet) (spawn_pose packet) ;;
  entity ← getEntity (SpawnEntity.entityId packet);
  emit (entity_spawn entity packet).

Definition on_entity_velocity (packet : DownstreamEntityVelocityPacketData) : M unit :=
  entity ← getEntity (EntityVelocity.entityId packet);
  (if is_undefined entity
   then mthrow (UnknownEntity (EntityVelocity.entityId packet))
   else mret ()) ;;
  velocity_set_x entity (decodeNotchianVelocityByte (EntityVelocity.velocityX packet)) ;;
  velocity_set_y entity (decodeNotchianVelocityByte (EntityVelocity.velocityY packet)) ;;
  velocity_set_z entity (decodeNotchianVelocityByte (EntityVelocity.velocityZ packet)) ;;
  emit (entity_velocity entity packet).

Definition on_entity_destroy (packet : DownstreamEntityDestroyPacketData) : M unit :=
  for_of (EntityDestroy.entityIds packet) (λ id,
    entity ← getEntity id;
    assign entity (Entity.set_isValid false) ;;
    entities_delete id ;;
    emit (entity_destroy entity packet)).

Definition onRelativeEntityMovement (packet : DownstreamRelativeEntityMovePacketData) : M unit :=
  entity ← getEntity (RelativeEntityMove.entityId packet);
  (if Registry.supportFeature registry "fixedPointDelta" then
     position_translate entity
       (RelativeEntityMove.dX packet / 32)%R
       (RelativeEntityMove.dY packet / 32)%R
       (RelativeEntityMove.dZ packet / 32)%R
   else
     position_translate entity
       (RelativeEntityMove.dX packet / (128 * 32))%R
       (RelativeEntityMove.dY packet / (128 * 32))%R
       (RelativeEntityMove.dZ packet / (128 * 32))%R) ;;
  emit (entity_position entity (inl packet)).

Definition onEntityLook (packet : DownstreamEntityLookPacketData) : M unit :=
  entity ← getEntity (EntityLook.entityId packet);
  assign entity (Entity.set_yaw (decodeNotchianYawByte (EntityLook.yaw packet))) ;;
  assign entity (Entity.set_pitch (decodeNotchianPitchByte (EntityLook.pitch packet))) ;;
  emit (entity_look entity packet).

Definition on_rel_entity_move := onRelativeEntityMovement.

Definition on_entity_look := onEntityLook.

Definition on_entity_move_look (packet : DownstreamRelativeEntityMovePacketData) : M unit :=
  onRelativeEntityMovement packet ;;
  onEntityLook (move_look packet).

Definition on_entity_teleport (packet : DownstreamEntityTeleportPacketData) : M unit :=
  entity ← getEntity (EntityTeleport.entityId packet);
  (if Registry.supportFeature registry "fixedPointPosition" then
     position_set entity
       (EntityTeleport.x packet / 32)%R
       (EntityTeleport.y packet / 32)%R
       (EntityTeleport.z packet / 32)%R
   else if Registry.supportFeature registry "doublePosition" then
     position_set entity (EntityTeleport.x packet) (EntityTeleport.y packet)
                         (EntityTeleport.z packet)
   else mret ()) ;;
  assign entity (Entity.set_yaw (decodeNotchianYawByte (EntityTeleport.yaw packet))) ;;
  assign entity (Entity.set_pitch (decodeNotchianPitchByte (EntityTeleport.pitch packet))) ;;
  emit (entity_teleport entity packet).

End Handlers.

(** [proxy.downstream.on(name, handler)]: the packets the tracker subscribes
    to, by name, and the handler each one reaches.  A packet is identified
    with its [data]. *)
Module Downstream.
Inductive Packet : Type :=
  | spawn_entity (data : DownstreamSpawnEntityPacketData)
  | entity_velocity (data : DownstreamEntityVelocityPacketData)
  | entity_destroy (data : DownstreamEntityDestroyPacketData)
  | rel_entity_move (data : DownstreamRelativeEntityMovePacketData)
  | entity_look (data : DownstreamEntityLookPacketData)
  | entity_move_look (data : DownstreamRelativeEntityMovePacketData)
  | entity_teleport (data : DownstreamEntityTeleportPacketData).
End Downstream.

Definition downstream_on (registry : Registry) (packet : Downstream.Packet) : M unit :=
  match packet with
  | Downstream.spawn_entity data => on_spawn_entity registry data
  | Downstream.entity_velocity data => on_entity_velocity data
  | Downstream.entity_destroy data => on_entity_destroy data
  | Downstream.rel_entity_move data => on_rel_entity_move registry data
  | Downstream.entity_look data => on_entity_look data
  | Downstream.entity_move_look data => on_entity_move_look registry data
  | Downstream.entity_teleport data => on_entity_teleport registry data
  end.

(** The state after a stream of packets, handled one at a time.  A handler
    that throws leaves the state it reached; the next packet starts there. *)
Definition after (registry : Registry) (packets : list Downstream.Packet) (st : State) : State :=
  foldl (λ st packet, (downstream_on registry packet st).2) st packets.

(** ** Vocabulary of the statements *)

(** What [getEntity id] finds or makes: the object [e] behind the reference
    it returns, in the state it leaves. *)
Inductive resolved (st : State) (id : Z) : ref → State → Entity → Prop :=
  | resolved_tracked (entity : ref) (e : Entity) :
      entities st !! id = Some entity →
      heap st !! entity = Some e →
      Entity.id e = id →
      resolved st id entity st e
  | resolved_created :
      entities st !! id = None →
      resolved st id (fresh (dom (heap st)))
        {| heap := <[fresh (dom (heap st)) := Entity.new id]> (heap st);
           entities := <[id := fresh (dom (heap st))]> (entities st);
           emitted := emitted st |}
        (Entity.new id).

(** [st'] differs from [st] at most in the fields of the object [entity]. *)
Definition only_object (entity : ref) (st st' : State) : Prop :=
  entities st' = entities st ∧ emitted st' = emitted st
  ∧ ∀ other : ref, other ≠ entity → heap st' !! other = heap st !! other.

(** [st'] is [st] with the object [entity] now holding [e'], announced once
    by the event [ev]. *)
Definition touched (entity : ref) (ev : Event) (e' : Entity) (st st' : State) : Prop :=
  entities st' = entities st
  ∧ (∀ other : ref, other ≠ entity → heap st' !! other = heap st !! other)
  ∧ heap st' !! entity = Some e'
  ∧ emitted st' =
      emitted st ++ [{| event := ev; seen := Some e'; table := entities st |}].

Definition same_identity (e e' : Entity) : Prop :=
  Entity.id e' = Entity.id e
  ∧ Entity.uuid e' = Entity.uuid e
  ∧ Entity.isValid e' = Entity.isValid e.

Definition same_classification (e e' : Entity) : Prop :=
  Entity.type e' = Entity.type e
  ∧ Entity.entityType e' = Entity.entityType e
  ∧ Entity.mobType e' = Entity.mobType e
  ∧ Entity.name e' = Entity.name e
  ∧ Entity.displayName e' = Entity.displayName e
  ∧ Entity.kind e' = Entity.kind e
  ∧ Entity.height e' = Entity.height e
  ∧ Entity.width e' = Entity.width e.

Definition same_orientation (e e' : Entity) : Prop :=
  Entity.yaw e' = Entity.yaw e ∧ Entity.pitch e' = Entity.pitch e.

(** The effect of [setEntityDataByType] on the fields of the object. *)
Definition classified (registry : Registry) (typeId : Z) (e e' : Entity) : Prop :=
  (Registry.entities registry !! typeId = None →
     Entity.type e' = Some "other"
     ∧ Entity.entityType e' = Some typeId
     ∧ Entity.mobType e' = Some "unknown"
     ∧ Entity.displayName e' = Some "unknown"
     ∧ Entity.name e' = Some "unknown"
     ∧ Entity.kind e' = Some "unknown"
     ∧ Entity.height e' = Entity.height e
     ∧ Entity.width e' = Entity.width e)
  ∧ (∀ data, Registry.entities registry !! typeId = Some data →
     Entity.type e' = Some (Registry.type data)
     ∧ Entity.displayName e' = Some (Registry.displayName data)
     ∧ Entity.entityType e' = Some (Registry.id data)
     ∧ Entity.name e' = Some (Registry.name data)
     ∧ Entity.kind e' = Some (Registry.category data)
     ∧ Entity.height e' = Some (Registry.height data)
     ∧ Entity.width e' = Some (Registry.width data)
     ∧ Entity.mobType e' = Entity.mobType e)
  ∧ same_identity e e'
  ∧ same_orientation e e'
  ∧ Entity.position e' = Entity.position e
  ∧ Entity.velocity e' = Entity.velocity e.

(** The effect of [setEntityPose] on the fields of the object. *)
Definition posed (registry : Registry) (pose : PacketPhysicsState) (e e' : Entity) : Prop :=
  Entity.position e' =
    (if Registry.supportFeature registry "fixedPointPosition" then
       Vec3.Build (PhysicsState.x pose / 32) (PhysicsState.y pose / 32)
                  (PhysicsState.z pose / 32)
     else if Registry.supportFeature registry "doublePosition" then
       Vec3.Build (PhysicsState.x pose) (PhysicsState.y pose) (PhysicsState.z pose)
     else Entity.position e)
  ∧ Entity.yaw e' = Conversion.decodeNotchianYawByte (PhysicsState.yaw pose)
  ∧ Entity.pitch e' = Conversion.decodeNotchianPitchByte (PhysicsState.pitch pose)
  ∧ Entity.velocity e' =
      Vec3.Build (Conversion.decodeNotchianVelocityByte (PhysicsState.velocityX pose))
                 (Conversion.decodeNotchianVelocityByte (PhysicsState.velocityY pose))
                 (Conversion.decodeNotchianVelocityByte (PhysicsState.velocityZ pose))
  ∧ same_identity e e'
  ∧ same_classification e e'.

(** The body of the loop of the destroy handler, for one id of the batch. *)
Definition destroy_iteration (packet : DownstreamEntityDestroyPacketData) (id : Z) : M unit :=
  entity ← getEntity id;
  assign entity (Entity.set_isValid false) ;;
  entities_delete id ;;
  emit (entity_destroy entity packet).

(** One [entity.destroy] emission for [id]: the subscribers are handed an
    object created for [id] and already invalid, [id] is already out of the
    table, and the object is invalid in the state [st'] as well. *)
Definition destroyed (packet : DownstreamEntityDestroyPacketData) (st' : State)
    (id : Z) (em : Emission) : Prop :=
  ∃ (entity : ref) (e : Entity),
    event em = entity_destroy entity packet
    ∧ seen em = Some e
    ∧ Entity.id e = id
    ∧ Entity.isValid e = false
    ∧ table em !! id = None
    ∧ ∃ e', heap st' !! entity = Some e' ∧ Entity.isValid e' = false.

(** *** Inputs of the examples *)

Definition no_types : gmap Z Registry.EntityData := ∅.

Definition fixed_point_registry : Registry :=
  {| Registry.entities := no_types;
     Registry.supportFeature := λ feature,
       String.eqb feature "fixedPointPosition" || String.eqb feature "fixedPointDelta" |}.

Definition velocity_7 : DownstreamEntityVelocityPacketData :=
  {| EntityVelocity.entityId := 7; EntityVelocity.velocityX := 8000;
     EntityVelocity.velocityY := 0; EntityVelocity.velocityZ := 0 |}.

Definition destroy_7 : DownstreamEntityDestroyPacketData :=
  {| EntityDestroy.entityIds := [7%Z] |}.

Definition destroy_42_7 : DownstreamEntityDestroyPacketData :=
  {| EntityDestroy.entityIds := [42%Z; 7%Z] |}.

Definition spawn_42 : DownstreamSpawnEntityPacketData :=
  {| SpawnEntity.entityId := 42; SpawnEntity.objectUUID := "u1"; SpawnEntity.type := 999;
     SpawnEntity.x := 64; SpawnEntity.y := 32; SpawnEntity.z := -32;
     SpawnEntity.pitch := 0; SpawnEntity.yaw := 64; SpawnEntity.headPitch := 0;
     SpawnEntity.objectData := 0;
     SpawnEntity.velocityX := 0; SpawnEntity.velocityY := 8000; SpawnEntity.velocityZ := 0 |}.

Definition teleport_42 : DownstreamEntityTeleportPacketData :=
  {| EntityTeleport.entityId := 42;
     EntityTeleport.x := 64; EntityTeleport.y := 32; EntityTeleport.z := -32;
     EntityTeleport.yaw := 64; EntityTeleport.pitch := 0; EntityTeleport.onGround := true |}.

Definition move_42 : DownstreamRelativeEntityMovePacketData :=
  {| RelativeEntityMove.entityId := 42;
     RelativeEntityMove.dX := 320; RelativeEntityMove.dY := 0; RelativeEntityMove.dZ := -320;
     RelativeEntityMove.yaw := 0; RelativeEntityMove.pitch := 0;
     RelativeEntityMove.onGround := true |}.

Definition look_42 : DownstreamEntityLookPacketData :=
  {| EntityLook.entityId := 42; EntityLook.yaw := 64; EntityLook.pitch := 32;
     EntityLook.onGround := true |}.

(** Entity 42 tracked, as a first reference to it leaves it. *)
Definition tracking_42 : State :=
  {| heap := {[ 1%positive := Entity.new 42 ]}; entities := {[ 42%Z := 1%positive ]};
     emitted := [] |}.

(** ** Vocabulary of the further properties *)

(** The orientation of an entity is in the canonical ranges. *)
Definition normalized (e : Entity) : Prop :=
  (0 <= Entity.yaw e < 2 * Rtrigo1.PI)%R
  ∧ (- Rtrigo1.PI <= Entity.pitch e < Rtrigo1.PI)%R.

(** The invariant of the reachable states: the table is well formed, every
    tracked entity is valid, every entity object has a canonical orientation. *)
Definition sound (st : State) : Prop :=
  wf st
  ∧ (∀ id entity e, entities st !! id = Some entity → heap st !! entity = Some e →
       Entity.isValid e = true)
  ∧ (∀ entity e, heap st !! entity = Some e → normalized e).

(** The ids a packet names. *)
Definition packet_ids (packet : Downstream.Packet) : list Z :=
  match packet with
  | Downstream.spawn_entity data => [SpawnEntity.entityId data]
  | Downstream.entity_velocity data => [EntityVelocity.entityId data]
  | Downstream.entity_destroy data => EntityDestroy.entityIds data
  | Downstream.rel_entity_move data => [RelativeEntityMove.entityId data]
  | Downstream.entity_look data => [EntityLook.entityId data]
  | Downstream.entity_move_look data => [RelativeEntityMove.entityId data]
  | Downstream.entity_teleport data => [EntityTeleport.entityId data]
  end.

(** The keys of [EventMap]. *)
Inductive EventName : Type :=
  | entity_spawn_name | entity_destroy_name | entity_velocity_name
  | entity_position_name | entity_look_name | entity_teleport_name.

Definition event_name (ev : Event) : EventName :=
  match ev with
  | entity_spawn _ _ => entity_spawn_name
  | entity_destroy _ _ => entity_destroy_name
  | entity_velocity _ _ => entity_velocity_name
  | entity_position _ _ => entity_position_name
  | entity_look _ _ => entity_look_name
  | entity_teleport _ _ => entity_teleport_name
  end.

(** The events a packet gives rise to, in order. *)
Definition packet_events (packet : Downstream.Packet) : list EventName :=
  match packet with
  | Downstream.spawn_entity _ => [entity_spawn_name]
  | Downstream.entity_velocity _ => [entity_velocity_name]
  | Downstream.entity_destroy data =>
      replicate (length (EntityDestroy.entityIds data)) entity_destroy_name
  | Downstream.rel_entity_move _ => [entity_position_name]
  | Downstream.entity_look _ => [entity_look_name]
  | Downstream.entity_move_look _ => [entity_position_name; entity_look_name]
  | Downstream.entity_teleport _ => [entity_teleport_name]
  end.

(** Entity 42 destroyed: its object is still there, invalid and not tracked. *)
Definition destroyed_42 : State :=
  {| heap := {[ 1%positive := Entity.set_isValid false (Entity.new 42) ]};
     entities := ∅; emitted := [] |}.

(** A type registry that knows the type code 1 only, with no feature on. *)
Definition pig : Registry.EntityData :=
  {| Registry.type := "mob"; Registry.id := 1; Registry.name := "pig";
     Registry.displayName := "Pig"; Registry.category := "Passive mobs";
     Registry.height := 0.9; Registry.width := 0.9 |}.

Definition pig_registry : Registry :=
  {| Registry.entities := {[ 1%Z := pig ]}; Registry.supportFeature := λ _, false |}.

Definition spawn_pig_42 : DownstreamSpawnEntityPacketData :=
  {| SpawnEntity.entityId := 42; SpawnEntity.objectUUID := "u0"; SpawnEntity.type := 1;
     SpawnEntity.x := 0; SpawnEntity.y := 0; SpawnEntity.z := 0;
     SpawnEntity.pitch := 0; SpawnEntity.yaw := 0; SpawnEntity.headPitch := 0;
     SpawnEntity.objectData := 0;
     SpawnEntity.velocityX := 0; SpawnEntity.velocityY := 0; SpawnEntity.velocityZ := 0 |}.

Definition move_back_42 : DownstreamRelativeEntityMovePacketData :=
  {| RelativeEntityMove.entityId := 42;
     RelativeEntityMove.dX := -320; RelativeEntityMove.dY := 0; RelativeEntityMove.dZ := 320;
     RelativeEntityMove.yaw := 0; RelativeEntityMove.pitch := 0;
     RelativeEntityMove.onGround := true |}.

(** [e'] is a later state of the object [e]: the same id, and invalid if [e]
    was. *)
Definition persists (e e' : Entity) : Prop :=
  Entity.id e' = Entity.id e ∧ (Entity.isValid e = false → Entity.isValid e' = false).

Definition heap_persists (st st' : State) : Prop :=
  ∀ r e, heap st !! r = Some e → ∃ e', heap st' !! r = Some e' ∧ persists e e'.

(** The id [id'] is tracked in [st'] as in [st], with the same fields. *)
Definition kept (id' : Z) (st st' : State) : Prop :=
  entities st' !! id' = entities st !! id' ∧ getEntityById st' id' = getEntityById st id'.

(** ** The conversions without [%] on binary64

    The same source lines read on the kernel's binary64 floats, the
    representation of a JavaScript number, for the conversions whose only
    operations are [*] and [/]. *)

Module Binary64.
Import PrimFloat.
Local Open Scope float_scope.

Definition NOTCH_BYTE_VELOCITY_TO_BPS : float := 1 / 8000.

Definition decodeNotchianVelocityByte (byte : float) : float :=
  byte * NOTCH_BYTE_VELOCITY_TO_BPS.

(** An integer as a binary64 number; exact below [2 ^ 53], where every
    doubling and every increment is exact. *)
Fixpoint of_pos (p : positive) : float :=
  match p with
  | xH => 1
  | xO p => 2 * of_pos p
  | xI p => 2 * of_pos p + 1
  end.

Definition of_Z (z : Z) : float :=
  match z with
  | Z0 => 0
  | Zpos p => of_pos p
  | Zneg p => - of_pos p
  end.

(** [r] is the binary64 number [q] or one of the two binary64 numbers next
    to it. *)
Definition neighbours (r q : float) : bool :=
  (r =? q) || (r =? next_up q) || (r =? next_down q).

(** The decoded velocity of the integer [z], compared with the quotient
    [z / 8000] rounded once. *)
Definition product_near_quotient (z : Z) : bool :=
  neighbours (decodeNotchianVelocityByte (of_Z z)) (of_Z z / 8000).

(** [P] on the [n] integers from [z] on. *)
Fixpoint all_from (P : Z -> bool) (n : nat) (z : Z) : bool :=
  match n with
  | O => true
  | S n => P z && all_from P n (z + 1)
  end.

End Binary64.

(** ** Properties of the conversions *)

Module ConversionFacts.
Import Conversion.
Local Open Scope R_scope.

Lemma trunc_nonneg (x : number) :
  0 <= x -> IZR (trunc x) <= x < IZR (trunc x) + 1.
Proof.
  intros Hx. unfold trunc. destruct (Rle_dec 0 x) as [_|Hn]; [|contradiction].
  destruct (base_Int_part x) as [Hlo Hhi]. lra.
Qed.

Lemma trunc_neg (x : number) :
  x < 0 -> x <= IZR (trunc x) < x + 1.
Proof.
  intros Hx. unfold trunc. destruct (Rle_dec 0 x) as [Hp|_]; [lra|].
  destruct (base_Int_part (- x)) as [Hlo Hhi]. rewrite opp_IZR. lra.
Qed.

Lemma quotient_times (n d : number) : d <> 0 -> d * (n / d) = n.
Proof. intros Hd. field. exact Hd. Qed.

(** The remainder keeps the sign of the numerator and is smaller than the
    denominator in magnitude. *)
Lemma rem_bounds (n d : number) :
  0 < d -> - d < rem n d < d /\ (0 <= n -> 0 <= rem n d) /\ (n < 0 -> rem n d <= 0).
Proof.
  intros Hd. unfold rem.
  assert (Hq : d * (n / d) = n) by (apply quotient_times; lra).
  destruct (Rle_dec 0 (n / d)) as [Hp|Hp].
  - destruct (trunc_nonneg _ Hp) as [Hlo Hhi].
    assert (d * IZR (trunc (n / d)) <= d * (n / d)) by (apply Rmult_le_compat_l; lra).
    assert (d * (n / d) < d * (IZR (trunc (n / d)) + 1)) by (apply Rmult_lt_compat_l; lra).
    assert (0 <= n) by (rewrite <- Hq; apply Rmult_le_pos; lra).
    repeat split; intros; lra.
  - assert (Hlt : n / d < 0) by lra.
    destruct (trunc_neg _ Hlt) as [Hlo Hhi].
    assert (d * (n / d) <= d * IZR (trunc (n / d))) by (apply Rmult_le_compat_l; lra).
    assert (d * IZR (trunc (n / d)) < d * (n / d + 1)) by (apply Rmult_lt_compat_l; lra).
    assert (d * (n / d) < d * 0) by (apply Rmult_lt_compat_l; lra).
    repeat split; intros; lra.
Qed.

Lemma euclidianMod_range (n d : number) :
  0 < d -> 0 <= euclidianMod n d < d.
Proof.
  intros Hd. unfold euclidianMod. cbv zeta.
  destruct (rem_bounds n d Hd) as [[Hlo Hhi] _].
  destruct (Rlt_dec (rem n d) 0); lra.
Qed.

Lemma euclidianMod_multiple (n d : number) :
  exists k : Z, euclidianMod n d - n = IZR k * d.
Proof.
  unfold euclidianMod, rem. cbv zeta.
  set (q := trunc (n / d)).
  destruct (Rlt_dec _ 0).
  - exists (1 - q)%Z. rewrite minus_IZR. lra.
  - exists (- q)%Z. rewrite opp_IZR. lra.
Qed.

Lemma TAU_pos : 0 < TAU.
Proof. unfold TAU, PI. pose proof PI_RGT_0. lra. Qed.

Lemma decodeNotchianYaw_range (deg : number) :
  0 <= decodeNotchianYaw deg < TAU.
Proof. apply euclidianMod_range, TAU_pos. Qed.

Lemma decodeNotchianPitch_range (deg : number) :
  - PI <= decodeNotchianPitch deg < PI.
Proof.
  unfold decodeNotchianPitch.
  pose proof (euclidianMod_range (toRadians (- deg) + PI) TAU TAU_pos) as H.
  set (m := euclidianMod _ _) in *. unfold TAU in H. lra.
Qed.

(** C7: for every real [n] and every positive [d], [euclidianMod n d] is
    non-negative and differs from [n] by an integer multiple of [d]. *)
Theorem euclidianMod_nonneg_congruent (n d : number) :
  0 < d ->
  0 <= euclidianMod n d /\ exists k : Z, euclidianMod n d - n = IZR k * d.
Proof.
  intros Hd. split.
  - apply (euclidianMod_range n d Hd).
  - apply euclidianMod_multiple.
Qed.

Lemma euclidianMod_nonneg_congruent_witness :
  0 < 3 /\
  (0 <= euclidianMod (-7) 3 /\ exists k : Z, euclidianMod (-7) 3 - (-7) = IZR k * 3).
Proof. split; [lra | apply (euclidianMod_nonneg_congruent (-7) 3); lra]. Defined.

(** C6: for every integer byte from 0 to 255, [decodeNotchianYawByte] is
    [euclidianMod (PI - toRadians (byte * 360 / 256)) (2 * PI)] and lies in
    [[0, 2 PI)], and [decodeNotchianPitchByte] lies in [[- PI, PI)].  (The
    ranges hold for every argument, see [decodeNotchianYaw_range] and
    [decodeNotchianPitch_range].) *)
Theorem decodeNotchian_byte_ranges (b : Z) :
  (0 <= b <= 255)%Z ->
  let byte : number := IZR b in
  decodeNotchianYawByte byte
    = euclidianMod (Rtrigo1.PI - toRadians (byte * (360 / 256))) (2 * Rtrigo1.PI)
  /\ 0 <= decodeNotchianYawByte byte < 2 * Rtrigo1.PI
  /\ - Rtrigo1.PI <= decodeNotchianPitchByte byte < Rtrigo1.PI.
Proof.
  intros Hb byte. split; [reflexivity|]. split.
  - apply (decodeNotchianYaw_range (byte * NOTCH_BYTE_TO_RAD)).
  - apply (decodeNotchianPitch_range (byte * NOTCH_BYTE_TO_RAD)).
Qed.

Lemma decodeNotchian_byte_ranges_witness :
  (0 <= 192 <= 255)%Z /\
  (decodeNotchianYawByte (IZR 192)
     = euclidianMod (Rtrigo1.PI - toRadians (IZR 192 * (360 / 256))) (2 * Rtrigo1.PI)
   /\ 0 <= decodeNotchianYawByte (IZR 192) < 2 * Rtrigo1.PI
   /\ - Rtrigo1.PI <= decodeNotchianPitchByte (IZR 192) < Rtrigo1.PI).
Proof. split; [lia | apply (decodeNotchian_byte_ranges 192); lia]. Defined.

(** In exact arithmetic the product with [1 / 8000] is the quotient by
    [8000]. *)
Lemma decodeNotchianVelocityByte_quotient (b : number) :
  decodeNotchianVelocityByte b = b / 8000.
Proof. unfold decodeNotchianVelocityByte, NOTCH_BYTE_VELOCITY_TO_BPS. lra. Qed.

Lemma decodeNotchianVelocityByte_0 : decodeNotchianVelocityByte 0 = 0.
Proof. rewrite decodeNotchianVelocityByte_quotient. lra. Qed.

Lemma decodeNotchianVelocityByte_8000 : decodeNotchianVelocityByte 8000 = 1.
Proof. rewrite decodeNotchianVelocityByte_quotient. lra. Qed.

End ConversionFacts.

Module Binary64Facts.
Import PrimFloat.
Local Open Scope float_scope.

(** On binary64 the two values the specification names come out exactly. *)
Example binary64_velocity_0 :
  Binary64.decodeNotchianVelocityByte 0 = 0.
Proof. vm_compute. reflexivity. Qed.

Example binary64_velocity_8000 :
  Binary64.decodeNotchianVelocityByte 8000 = 1.
Proof. vm_compute. reflexivity. Qed.

(** Rounding is visible elsewhere: the product with the rounded constant
    [1 / 8000] and the quotient by [8000] differ in the last place at 9. *)
Remark binary64_velocity_9 :
  (Binary64.decodeNotchianVelocityByte 9 =? 9 / 8000) = false.
Proof. vm_compute. reflexivity. Qed.

(** C8 (as stated) fails on binary64 at 9: the decoded value is not the
    quotient [9 / 8000] but the binary64 number after it. *)
Lemma decodeNotchianVelocityByte_9_inexact :
  Binary64.decodeNotchianVelocityByte 9 <> 9 / 8000
  /\ Binary64.decodeNotchianVelocityByte 9 = next_up (9 / 8000).
Proof.
  split; [|vm_compute; reflexivity].
  intros H. pose proof binary64_velocity_9 as E. rewrite H in E.
  vm_compute in E. discriminate E.
Qed.

Lemma all_from_spec (P : Z -> bool) (n : nat) (z k : Z) :
  Binary64.all_from P n z = true -> (z <= k < z + Z.of_nat n)%Z -> P k = true.
Proof.
  revert z. induction n as [|n IH]; intros z H Hk; [lia|].
  cbn [Binary64.all_from] in H. apply andb_true_iff in H as [Hz Hrest].
  destruct (Z.eq_dec k z) as [->|Hne]; [exact Hz|].
  apply (IH (z + 1)%Z Hrest). lia.
Qed.

(** Every integer of 16 bits, one after the other. *)
Lemma product_near_quotient_all :
  Binary64.all_from Binary64.product_near_quotient (Z.to_nat 65536) (-32768) = true.
Proof. vm_compute. reflexivity. Qed.

Lemma product_near_quotient_int16 (z : Z) :
  (-32768 <= z <= 32767)%Z -> Binary64.product_near_quotient z = true.
Proof.
  intros Hz. apply (all_from_spec _ _ _ _ product_near_quotient_all). lia.
Qed.

(** C8 (amended): [decodeNotchianVelocityByte b] is the product of [b] and
    the constant [1 / 8000].  In exact arithmetic that is [b / 8000] for
    every [b].  On binary64 it is [0] at [0] and [1] at [8000], and for every
    integer of 16 bits, which covers the bytes, it is the quotient by [8000]
    rounded once, or one of the two binary64 numbers next to that. *)
Theorem decodeNotchianVelocityByte_product :
  (forall b : number, Conversion.decodeNotchianVelocityByte b = (b / 8000)%R)
  /\ (forall b : float, Binary64.decodeNotchianVelocityByte b = b * (1 / 8000))
  /\ Binary64.decodeNotchianVelocityByte 0 = 0
  /\ Binary64.decodeNotchianVelocityByte 8000 = 1
  /\ (forall z : Z, (-32768 <= z <= 32767)%Z ->
        Binary64.neighbours (Binary64.decodeNotchianVelocityByte (Binary64.of_Z z))
                            (Binary64.of_Z z / 8000) = true).
Proof.
  split; [exact ConversionFacts.decodeNotchianVelocityByte_quotient|].
  split; [intros b; reflexivity|].
  split; [exact binary64_velocity_0|].
  split; [exact binary64_velocity_8000|].
  intros z Hz. exact (product_near_quotient_int16 z Hz).
Qed.

Lemma decodeNotchianVelocityByte_product_witness :
  (-32768 <= 9 <= 32767)%Z
  /\ Binary64.neighbours (Binary64.decodeNotchianVelocityByte (Binary64.of_Z 9))
                         (Binary64.of_Z 9 / 8000) = true.
Proof.
  split; [lia|].
  apply (proj2 (proj2 (proj2 (proj2 decodeNotchianVelocityByte_product)))). lia.
Defined.

End Binary64Facts.

(** ** Properties of the tracker *)

Module TrackerFacts.
Import Conversion.

(** *** Running the monad *)

Lemma bind_normal {A B : Type} (m : M A) (f : A → M B) (st st1 : State) (a : A) :
  m st = (Normal a, st1) → (m ≫= f) st = f a st1.
Proof. intros H. unfold mbind, M_bind. rewrite H. reflexivity. Qed.

Lemma bind_throw {A B : Type} (m : M A) (f : A → M B) (st st1 : State) (err : Error) :
  m st = (Throw err, st1) → (m ≫= f) st = (Throw err, st1).
Proof. intros H. unfold mbind, M_bind. rewrite H. reflexivity. Qed.

(** *** [getEntity] *)

Lemma fresh_unallocated (st : State) : heap st !! fresh (dom (heap st)) = None.
Proof. apply not_elem_of_dom, is_fresh. Qed.

Lemma getEntity_tracked (st : State) (id : Z) (entity : ref) :
  entities st !! id = Some entity → getEntity id st = (Normal entity, st).
Proof.
  intros H. unfold getEntity, entities_get, mbind, M_bind. rewrite H. reflexivity.
Qed.

Lemma getEntity_untracked (st : State) (id : Z) :
  entities st !! id = None →
  getEntity id st =
    (Normal (fresh (dom (heap st))),
     {| heap := <[fresh (dom (heap st)) := Entity.new id]> (heap st);
        entities := <[id := fresh (dom (heap st))]> (entities st);
        emitted := emitted st |}).
Proof.
  intros H. unfold getEntity, entities_get, mbind, M_bind. rewrite H. reflexivity.
Qed.

(** [getEntity] never throws, whatever the state. *)
Lemma getEntity_returns (st : State) (id : Z) :
  ∃ entity st1, getEntity id st = (Normal entity, st1).
Proof.
  destruct (entities st !! id) as [entity|] eqn:Hid.
  - eexists _, _. by apply getEntity_tracked.
  - eexists _, _. by apply getEntity_untracked.
Qed.

Lemma getEntity_resolved (st : State) (id : Z) :
  wf st →
  ∃ entity st1 e, getEntity id st = (Normal entity, st1) ∧ resolved st id entity st1 e.
Proof.
  intros Hwf. destruct (entities st !! id) as [entity|] eqn:Hid.
  - destruct (Hwf _ _ Hid) as (e & He & Heid).
    exists entity, st, e. split; [by apply getEntity_tracked|by constructor].
  - eexists _, _, _. split; [by apply getEntity_untracked|by constructor].
Qed.

Lemma resolved_lookup (st st1 : State) (id : Z) (entity : ref) (e : Entity) :
  resolved st id entity st1 e →
  entities st1 !! id = Some entity ∧ heap st1 !! entity = Some e ∧ Entity.id e = id
  ∧ emitted st1 = emitted st.
Proof.
  destruct 1; cbn; [done|]. by rewrite !lookup_insert_eq.
Qed.

Lemma resolved_wf (st st1 : State) (id : Z) (entity : ref) (e : Entity) :
  resolved st id entity st1 e → wf st → wf st1.
Proof.
  destruct 1 as [|Hid]; [done|]. intros Hwf id' r. cbn.
  rewrite lookup_insert. case_decide as Hd.
  - intros [= <-]. subst id'. rewrite lookup_insert_eq. by eexists.
  - intros Hr. destruct (Hwf _ _ Hr) as (e' & He' & Hid').
    exists e'. split; [|done]. rewrite lookup_insert_ne; [done|].
    intros <-. by rewrite fresh_unallocated in He'.
Qed.

(** Objects that existed before are left as they were. *)
Lemma resolved_heap (st st1 : State) (id : Z) (entity : ref) (e : Entity) (r : ref) :
  resolved st id entity st1 e → is_Some (heap st !! r) → heap st1 !! r = heap st !! r.
Proof.
  destruct 1; [done|]. intros [e' He']. cbn. rewrite lookup_insert_ne; [done|].
  intros <-. by rewrite fresh_unallocated in He'.
Qed.

Lemma resolved_entities (st st1 : State) (id : Z) (entity : ref) (e : Entity) (id' : Z) :
  resolved st id entity st1 e → id' ≠ id → entities st1 !! id' = entities st !! id'.
Proof.
  destruct 1; [done|]. intros Hne. cbn. by rewrite lookup_insert_ne.
Qed.

(** Removing the id that was resolved gives the table without that id. *)
Lemma resolved_delete (st st1 : State) (id : Z) (entity : ref) (e : Entity) :
  resolved st id entity st1 e → delete id (entities st1) = delete id (entities st).
Proof. destruct 1; [done|]. cbn. apply delete_insert_eq. Qed.

Ltac resolve Hwf id :=
  let entity := fresh "entity" in
  let st1 := fresh "st1" in
  let e := fresh "e" in
  let Hget := fresh "Hget" in
  let Hres := fresh "Hres" in
  destruct (getEntity_resolved _ id Hwf) as (entity & st1 & e & Hget & Hres);
  let Hent := fresh "Hent" in
  let Hheap := fresh "Hheap" in
  let Hid := fresh "Hid" in
  let Hem := fresh "Hem" in
  destruct (resolved_lookup _ _ _ _ _ Hres) as (Hent & Hheap & Hid & Hem).

(** *** The invariant *)

Lemma wf_initial : wf initial.
Proof. intros id entity. cbn. by rewrite lookup_empty. Qed.

Lemma wf_tracking_42 : wf tracking_42.
Proof.
  intros id entity. cbn. rewrite lookup_singleton. case_decide; [|done].
  intros [= <-]. subst id. rewrite lookup_singleton_eq. by eexists.
Qed.

Lemma only_object_trans (entity : ref) (st1 st2 st3 : State) :
  only_object entity st1 st2 → only_object entity st2 st3 → only_object entity st1 st3.
Proof.
  intros (E1 & M1 & H1) (E2 & M2 & H2). repeat split; [congruence..|].
  intros other Hne. by rewrite H2, H1.
Qed.

Lemma assign_only_object (entity : ref) (f : Entity → Entity) (st : State) :
  only_object entity st (assign entity f st).2.
Proof. repeat split. intros other Hne. cbn. by rewrite lookup_alter_ne. Qed.

(** A step that touches one object and keeps its [id] keeps the invariant. *)
Lemma touched_wf (entity : ref) (ev : Event) (e e' : Entity) (st st' : State) :
  wf st → heap st !! entity = Some e → Entity.id e' = Entity.id e →
  touched entity ev e' st st' → wf st'.
Proof.
  intros Hwf He Hid (Hents & Hothers & He' & _) id r. rewrite Hents. intros Hr.
  destruct (Hwf _ _ Hr) as (e0 & He0 & Hid0).
  destruct (decide (r = entity)) as [->|Hne].
  - exists e'. split; [done|]. congruence.
  - exists e0. by rewrite Hothers.
Qed.

(** The public query finds the touched object under the id it is stored at. *)
Lemma touched_getEntityById (entity : ref) (ev : Event) (e' : Entity) (st st' : State)
    (id : Z) :
  entities st !! id = Some entity → touched entity ev e' st st' →
  getEntityById st' id = Some e'.
Proof.
  intros Hent (Hents & _ & He' & _). unfold getEntityById.
  rewrite Hents, Hent. exact He'.
Qed.

(** *** Straight-line assignments *)

Ltac run_assignments Hheap :=
  cbn; unfold mbind, M_bind; cbn;
  split;
  [ split; [reflexivity|split; [reflexivity|
      let Hne := fresh "Hne" in
      intros ? Hne; cbn; rewrite ?lookup_alter_ne by done; reflexivity]]
  | intros ? Hheap; rewrite ?lookup_alter_eq, Hheap; cbn ].

Ltac run_touched Hheap :=
  split;
  [ unfold touched; cbn; rewrite ?lookup_alter_eq, Hheap; cbn;
    split; [reflexivity|split; [
      let Hne := fresh "Hne" in
      intros ? Hne; rewrite ?lookup_alter_ne by done; reflexivity
    | split; reflexivity]]
  | done ].

Lemma setEntityDataByType_run (registry : Registry) (entity : ref) (typeId : Z) (st : State) :
  ∃ st', setEntityDataByType registry entity typeId st = (Normal (), st')
    ∧ only_object entity st st'
    ∧ ∀ e, heap st !! entity = Some e →
        ∃ e', heap st' !! entity = Some e' ∧ classified registry typeId e e'.
Proof.
  unfold setEntityDataByType, classified.
  destruct (Registry.entities registry !! typeId) as [data|]; eexists; (split; [reflexivity|]).
  - run_assignments Hheap. eexists; split; [reflexivity|]. cbn.
    split; [done|]. split; [|done]. by intros ? [= <-].
  - run_assignments Hheap. eexists; split; [reflexivity|]. cbn.
    split; [done|]. split; [|done]. by intros ? [=].
Qed.

Lemma setEntityPose_run (registry : Registry) (entity : ref) (pose : PacketPhysicsState)
    (st : State) :
  ∃ st', setEntityPose registry entity pose st = (Normal (), st')
    ∧ only_object entity st st'
    ∧ ∀ e, heap st !! entity = Some e →
        ∃ e', heap st' !! entity = Some e' ∧ posed registry pose e e'.
Proof.
  unfold setEntityPose, posed.
  destruct (Registry.supportFeature registry "fixedPointPosition");
    [|destruct (Registry.supportFeature registry "doublePosition")];
    (eexists; split; [reflexivity|]);
    run_assignments Hheap; (eexists; split; [reflexivity|]); done.
Qed.

Lemma addEntity_run (registry : Registry) (id : Z) (uuid : string) (type : Z)
    (pose : PacketPhysicsState) (st : State) :
  wf st →
  ∃ entity st1 e st' ec e',
    getEntity id st = (Normal entity, st1)
    ∧ resolved st id entity st1 e
    ∧ addEntity registry id uuid type pose st = (Normal (), st')
    ∧ only_object entity st1 st'
    ∧ heap st' !! entity = Some e'
    ∧ classified registry type (Entity.set_uuid (Some uuid) e) ec
    ∧ posed registry pose ec e'.
Proof.
  intros Hwf. resolve Hwf id.
  destruct (setEntityDataByType_run registry entity type
              (assign entity (Entity.set_uuid (Some uuid)) st1).2)
    as (st2 & Hrun2 & Honly2 & Hobj2).
  destruct (Hobj2 (Entity.set_uuid (Some uuid) e)) as (ec & Hec & Hclass).
  { cbn. by rewrite lookup_alter_eq, Hheap. }
  destruct (setEntityPose_run registry entity pose st2) as (st3 & Hrun3 & Honly3 & Hobj3).
  destruct (Hobj3 ec Hec) as (e' & He' & Hposed).
  exists entity, st1, e, st3, ec, e'. repeat (split; [done|]).
  split; [|split; [|done]].
  - unfold addEntity. rewrite (bind_normal _ _ _ _ _ Hget).
    unfold mbind at 1, M_bind at 1. cbn.
    by rewrite (bind_normal _ _ _ _ _ Hrun2).
  - eapply only_object_trans; [apply assign_only_object|].
    eapply only_object_trans; [exact Honly2|exact Honly3].
Qed.

(** *** The handlers, one by one *)

Lemma on_spawn_entity_run (registry : Registry) (packet : DownstreamSpawnEntityPacketData)
    (st : State) :
  wf st →
  ∃ entity st1 e st' ec e',
    getEntity (SpawnEntity.entityId packet) st = (Normal entity, st1)
    ∧ resolved st (SpawnEntity.entityId packet) entity st1 e
    ∧ on_spawn_entity registry packet st = (Normal (), st')
    ∧ touched entity (entity_spawn entity packet) e' st1 st'
    ∧ classified registry (SpawnEntity.type packet)
        (Entity.set_uuid (Some (SpawnEntity.objectUUID packet)) e) ec
    ∧ posed registry (spawn_pose packet) ec e'.
Proof.
  intros Hwf.
  destruct (addEntity_run registry (SpawnEntity.entityId packet)
              (SpawnEntity.objectUUID packet) (SpawnEntity.type packet)
              (spawn_pose packet) st Hwf)
    as (entity & st1 & e & st2 & ec & e' & Hget & Hres & Hadd & Honly & He' & Hc & Hp).
  destruct (resolved_lookup _ _ _ _ _ Hres) as (Hent & Hheap & Hid & Hem).
  destruct Honly as (Hents & Hems & Hothers).
  exists entity, st1, e. eexists. exists ec, e'.
  split; [done|]. split; [done|]. split.
  { unfold on_spawn_entity. rewrite (bind_normal _ _ _ _ _ Hadd).
    rewrite (bind_normal _ _ _ _ _ (getEntity_tracked st2 _ entity ltac:(by rewrite Hents))).
    reflexivity. }
  split; [|done]. unfold touched. cbn. by rewrite He', Hems, Hents.
Qed.

Lemma on_entity_teleport_run (registry : Registry)
    (packet : DownstreamEntityTeleportPacketData) (st : State) :
  wf st →
  ∃ entity st1 e st' e',
    getEntity (EntityTeleport.entityId packet) st = (Normal entity, st1)
    ∧ resolved st (EntityTeleport.entityId packet) entity st1 e
    ∧ on_entity_teleport registry packet st = (Normal (), st')
    ∧ touched entity (entity_teleport entity packet) e' st1 st'
    ∧ Entity.position e' =
        (if Registry.supportFeature registry "fixedPointPosition" then
           Vec3.Build (EntityTeleport.x packet / 32) (EntityTeleport.y packet / 32)
                      (EntityTeleport.z packet / 32)
         else if Registry.supportFeature registry "doublePosition" then
           Vec3.Build (EntityTeleport.x packet) (EntityTeleport.y packet)
                      (EntityTeleport.z packet)
         else Entity.position e)
    ∧ Entity.yaw e' = decodeNotchianYawByte (EntityTeleport.yaw packet)
    ∧ Entity.pitch e' = decodeNotchianPitchByte (EntityTeleport.pitch packet)
    ∧ Entity.velocity e' = Entity.velocity e
    ∧ same_identity e e'
    ∧ same_classification e e'.
Proof.
  intros Hwf. resolve Hwf (EntityTeleport.entityId packet).
  exists entity, st1, e.
  unfold on_entity_teleport. rewrite (bind_normal _ _ _ _ _ Hget).
  destruct (Registry.supportFeature registry "fixedPointPosition");
    [|destruct (Registry.supportFeature registry "doublePosition")];
    eexists _, _; (split; [done|]); (split; [done|]);
    (split; [reflexivity|]); run_touched Hheap.
Qed.

Lemma onRelativeEntityMovement_run (registry : Registry)
    (packet : DownstreamRelativeEntityMovePacketData) (st : State) :
  wf st →
  ∃ entity st1 e st' e',
    getEntity (RelativeEntityMove.entityId packet) st = (Normal entity, st1)
    ∧ resolved st (RelativeEntityMove.entityId packet) entity st1 e
    ∧ onRelativeEntityMovement registry packet st = (Normal (), st')
    ∧ touched entity (entity_position entity (inl packet)) e' st1 st'
    ∧ Entity.position e' =
        (if Registry.supportFeature registry "fixedPointDelta" then
           Vec3.translate (RelativeEntityMove.dX packet / 32)
             (RelativeEntityMove.dY packet / 32)
             (RelativeEntityMove.dZ packet / 32) (Entity.position e)
         else
           Vec3.translate (RelativeEntityMove.dX packet / (128 * 32))
             (RelativeEntityMove.dY packet / (128 * 32))
             (RelativeEntityMove.dZ packet / (128 * 32)) (Entity.position e))
    ∧ Entity.velocity e' = Entity.velocity e
    ∧ same_orientation e e'
    ∧ same_identity e e'
    ∧ same_classification e e'.
Proof.
  intros Hwf. resolve Hwf (RelativeEntityMove.entityId packet).
  exists entity, st1, e.
  unfold onRelativeEntityMovement. rewrite (bind_normal _ _ _ _ _ Hget).
  destruct (Registry.supportFeature registry "fixedPointDelta");
    eexists _, _; (split; [done|]); (split; [done|]);
    (split; [reflexivity|]); run_touched Hheap.
Qed.

Lemma onEntityLook_run (packet : DownstreamEntityLookPacketData) (st : State) :
  wf st →
  ∃ entity st1 e st' e',
    getEntity (EntityLook.entityId packet) st = (Normal entity, st1)
    ∧ resolved st (EntityLook.entityId packet) entity st1 e
    ∧ onEntityLook packet st = (Normal (), st')
    ∧ touched entity (entity_look entity packet) e' st1 st'
    ∧ Entity.yaw e' = decodeNotchianYawByte (EntityLook.yaw packet)
    ∧ Entity.pitch e' = decodeNotchianPitchByte (EntityLook.pitch packet)
    ∧ Entity.position e' = Entity.position e
    ∧ Entity.velocity e' = Entity.velocity e
    ∧ same_identity e e'
    ∧ same_classification e e'.
Proof.
  intros Hwf. resolve Hwf (EntityLook.entityId packet).
  exists entity, st1, e. eexists _, _. split; [done|]. split; [done|].
  unfold onEntityLook. rewrite (bind_normal _ _ _ _ _ Hget).
  split; [reflexivity|]. run_touched Hheap.
Qed.

Lemma on_entity_velocity_run (packet : DownstreamEntityVelocityPacketData) (st : State) :
  wf st →
  ∃ entity st1 e st' e',
    getEntity (EntityVelocity.entityId packet) st = (Normal entity, st1)
    ∧ resolved st (EntityVelocity.entityId packet) entity st1 e
    ∧ on_entity_velocity packet st = (Normal (), st')
    ∧ touched entity (entity_velocity entity packet) e' st1 st'
    ∧ Entity.velocity e' =
        Vec3.Build (decodeNotchianVelocityByte (EntityVelocity.velocityX packet))
                   (decodeNotchianVelocityByte (EntityVelocity.velocityY packet))
                   (decodeNotchianVelocityByte (EntityVelocity.velocityZ packet))
    ∧ Entity.position e' = Entity.position e
    ∧ same_orientation e e'
    ∧ same_identity e e'
    ∧ same_classification e e'.
Proof.
  intros Hwf. resolve Hwf (EntityVelocity.entityId packet).
  exists entity, st1, e. eexists _, _. split; [done|]. split; [done|].
  unfold on_entity_velocity. rewrite (bind_normal _ _ _ _ _ Hget).
  split; [reflexivity|]. run_touched Hheap.
Qed.

(** *** The destroy loop *)

Lemma on_entity_destroy_loop (packet : DownstreamEntityDestroyPacketData) :
  on_entity_destroy packet =
  for_of (EntityDestroy.entityIds packet) (destroy_iteration packet).
Proof. reflexivity. Qed.

Lemma destroy_iteration_run (packet : DownstreamEntityDestroyPacketData) (id : Z)
    (st : State) :
  wf st →
  ∃ entity st1 e,
    getEntity id st = (Normal entity, st1)
    ∧ resolved st id entity st1 e
    ∧ destroy_iteration packet id st =
        (Normal (),
         {| heap := alter (Entity.set_isValid false) entity (heap st1);
            entities := delete id (entities st);
            emitted := emitted st ++
              [{| event := entity_destroy entity packet;
                  seen := Some (Entity.set_isValid false e);
                  table := delete id (entities st) |}] |}).
Proof.
  intros Hwf. resolve Hwf id. exists entity, st1, e.
  split; [done|]. split; [done|].
  unfold destroy_iteration. rewrite (bind_normal _ _ _ _ _ Hget).
  unfold mbind, M_bind, assign, entities_delete, emit. cbn.
  by rewrite lookup_alter_eq, Hheap, (resolved_delete _ _ _ _ _ Hres), Hem.
Qed.

(** One iteration keeps the invariant, and keeps every object that was
    there, invalid if it was invalid. *)
Lemma destroy_iteration_keeps (packet : DownstreamEntityDestroyPacketData) (id : Z)
    (st st' : State) :
  wf st →
  destroy_iteration packet id st = (Normal (), st') →
  wf st'
  ∧ ∀ r e0, heap st !! r = Some e0 →
      ∃ e0', heap st' !! r = Some e0'
             ∧ (Entity.isValid e0 = false → Entity.isValid e0' = false).
Proof.
  intros Hwf Hrun.
  destruct (destroy_iteration_run packet id st Hwf) as (entity & st1 & e & _ & Hres & Hrun').
  rewrite Hrun' in Hrun. injection Hrun as <-. cbn. split.
  - intros id' r. cbn. rewrite lookup_delete. case_decide; [intros [=]|]. intros Hr.
    destruct (Hwf _ _ Hr) as (e0 & He0 & Hid0).
    assert (heap st1 !! r = Some e0) as He1
      by (by rewrite (resolved_heap _ _ _ _ _ r Hres) by (by eexists)).
    destruct (decide (entity = r)) as [->|Hne].
    + rewrite lookup_alter_eq, He1. by eexists.
    + rewrite lookup_alter_ne, He1 by done. by eexists.
  - intros r e0 He0.
    assert (heap st1 !! r = Some e0) as He1
      by (by rewrite (resolved_heap _ _ _ _ _ r Hres) by (by eexists)).
    destruct (decide (entity = r)) as [->|Hne].
    + rewrite lookup_alter_eq, He1. by eexists.
    + rewrite lookup_alter_ne, He1 by done. by eexists.
Qed.

(** The table with the ids of [gone] removed. *)
Lemma lookup_after_delete (m : gmap Z ref) (id k : Z) (gone : list Z) :
  (if decide (k ∈ gone) then None else delete id m !! k)
  = (if decide (k ∈ id :: gone) then None else m !! k).
Proof.
  rewrite lookup_delete.
  destruct (decide (k ∈ id :: gone)) as [[->|Hin]%elem_of_cons|[Hne Hnin]%not_elem_of_cons].
  - destruct (decide (id ∈ gone)); [done|]. by rewrite decide_True.
  - by rewrite decide_True.
  - rewrite (decide_False (P := k ∈ gone)) by done. by rewrite decide_False.
Qed.

Lemma destroy_loop_run (packet : DownstreamEntityDestroyPacketData) (ids : list Z) :
  ∀ st : State, wf st →
  ∃ st' ems,
    for_of ids (destroy_iteration packet) st = (Normal (), st')
    ∧ wf st'
    ∧ emitted st' = emitted st ++ ems
    ∧ Forall2 (destroyed packet st') ids ems
    ∧ (∀ id, entities st' !! id = if decide (id ∈ ids) then None else entities st !! id)
    ∧ (∀ r e0, heap st !! r = Some e0 →
         ∃ e0', heap st' !! r = Some e0'
                ∧ (Entity.isValid e0 = false → Entity.isValid e0' = false))
    ∧ (∀ (i : nat) id entity, ids !! i = Some id → id ∉ take i ids →
         entities st !! id = Some entity →
         ∃ em, ems !! i = Some em ∧ event_entity (event em) = entity)
    ∧ (∀ (i : nat) em, ems !! i = Some em →
         ∀ k, table em !! k =
              if decide (k ∈ take (S i) ids) then None else entities st !! k).
Proof.
  induction ids as [|id ids IH]; intros st Hwf.
  - exists st, []. cbn. split; [done|]. split; [done|].
    split; [by rewrite app_nil_r|]. split; [constructor|].
    split; [intros id; by rewrite decide_False by apply not_elem_of_nil|].
    split; [by eauto|].
    split; [intros i id entity Hi; by rewrite lookup_nil in Hi|].
    intros i em Hi. by rewrite lookup_nil in Hi.
  - destruct (destroy_iteration_run packet id st Hwf)
      as (entity & st1 & e & Hget & Hres & Hrun).
    destruct (resolved_lookup _ _ _ _ _ Hres) as (Hent & Hheap & Hid & Hem).
    destruct (destroy_iteration_keeps packet id st _ Hwf Hrun) as (Hwf2 & Hkeep2).
    set (em0 := {| event := entity_destroy entity packet;
                   seen := Some (Entity.set_isValid false e);
                   table := delete id (entities st) |}) in *.
    set (st2 := {| heap := alter (Entity.set_isValid false) entity (heap st1);
                   entities := delete id (entities st);
                   emitted := emitted st ++ [em0] |}) in *.
    destruct (IH st2 Hwf2)
      as (st' & ems & Hloop & Hwf' & Hems & Hall & Hents & Hkeep & Hfirst & Htables).
    exists st', (em0 :: ems).
    split; [cbn; by rewrite (bind_normal _ _ _ _ _ Hrun)|].
    split; [done|].
    split; [rewrite Hems; cbn; by rewrite <- app_assoc|].
    split.
    { constructor; [|done]. exists entity, (Entity.set_isValid false e).
      split; [done|]. split; [done|]. split; [done|]. split; [done|].
      split; [cbn; apply lookup_delete_eq|].
      destruct (Hkeep entity (Entity.set_isValid false e)) as (e' & He' & Hinv).
      { cbn. by rewrite lookup_alter_eq, Hheap. }
      exists e'. split; [done|]. by apply Hinv. }
    split.
    { intros k. rewrite Hents. cbn. apply lookup_after_delete. }
    split.
    { intros r e0 He0. destruct (Hkeep2 r e0 He0) as (e1 & He1 & Hinv1).
      destruct (Hkeep r e1 He1) as (e2 & He2 & Hinv2).
      exists e2. split; [done|]. auto. }
    split.
    { intros [|i] id' entity' Hi Hnot Htracked; cbn in *.
      + injection Hi as <-. eexists; split; [done|]. cbn.
        destruct Hres as [entity e Hid' _ _|Hnone]; congruence.
      + apply (Hfirst i id' entity' Hi).
        * intros Hin. apply Hnot. by right.
        * cbn. rewrite lookup_delete_ne; [done|]. intros ->. apply Hnot. by left. }
    intros [|i] em Hi k.
    + injection Hi as <-. cbn. rewrite take_0.
      rewrite <- (lookup_after_delete (entities st) id k []).
      by rewrite decide_False by apply not_elem_of_nil.
    + cbn in Hi. rewrite (Htables i em Hi k). cbn.
      apply (lookup_after_delete (entities st) id k (take (S i) ids)).
Qed.

(** *** Every handler returns and keeps the invariant *)

Lemma on_spawn_entity_ok (registry : Registry) (packet : DownstreamSpawnEntityPacketData)
    (st : State) :
  wf st → ∃ st', on_spawn_entity registry packet st = (Normal (), st') ∧ wf st'.
Proof.
  intros Hwf.
  destruct (on_spawn_entity_run registry packet st Hwf)
    as (entity & st1 & e & st' & ec & e' & _ & Hres & Hrun & Htouched & Hc & Hp).
  exists st'. split; [done|].
  destruct (resolved_lookup _ _ _ _ _ Hres) as (_ & Hheap & _ & _).
  apply (touched_wf _ _ e _ _ _ (resolved_wf _ _ _ _ _ Hres Hwf) Hheap) in Htouched; [done|].
  destruct Hc as (_ & _ & (Hidc & _) & _). destruct Hp as (_ & _ & _ & _ & (Hidp & _) & _).
  by rewrite Hidp, Hidc.
Qed.

Lemma on_entity_velocity_ok (packet : DownstreamEntityVelocityPacketData) (st : State) :
  wf st → ∃ st', on_entity_velocity packet st = (Normal (), st') ∧ wf st'.
Proof.
  intros Hwf.
  destruct (on_entity_velocity_run packet st Hwf)
    as (entity & st1 & e & st' & e' & _ & Hres & Hrun & Htouched & _ & _ & _ & (Hid & _) & _).
  exists st'. split; [done|].
  destruct (resolved_lookup _ _ _ _ _ Hres) as (_ & Hheap & _ & _).
  by apply (touched_wf _ _ e _ _ _ (resolved_wf _ _ _ _ _ Hres Hwf) Hheap) in Htouched.
Qed.

Lemma on_entity_destroy_ok (packet : DownstreamEntityDestroyPacketData) (st : State) :
  wf st → ∃ st', on_entity_destroy packet st = (Normal (), st') ∧ wf st'.
Proof.
  intros Hwf. rewrite on_entity_destroy_loop.
  destruct (destroy_loop_run packet (EntityDestroy.entityIds packet) st Hwf)
    as (st' & ems & Hrun & Hwf' & _).
  by exists st'.
Qed.

Lemma onRelativeEntityMovement_ok (registry : Registry)
    (packet : DownstreamRelativeEntityMovePacketData) (st : State) :
  wf st → ∃ st', onRelativeEntityMovement registry packet st = (Normal (), st') ∧ wf st'.
Proof.
  intros Hwf.
  destruct (onRelativeEntityMovement_run registry packet st Hwf)
    as (entity & st1 & e & st' & e' & _ & Hres & Hrun & Htouched & _ & _ & _ & (Hid & _) & _).
  exists st'. split; [done|].
  destruct (resolved_lookup _ _ _ _ _ Hres) as (_ & Hheap & _ & _).
  by apply (touched_wf _ _ e _ _ _ (resolved_wf _ _ _ _ _ Hres Hwf) Hheap) in Htouched.
Qed.

Lemma onEntityLook_ok (packet : DownstreamEntityLookPacketData) (st : State) :
  wf st → ∃ st', onEntityLook packet st = (Normal (), st') ∧ wf st'.
Proof.
  intros Hwf.
  destruct (onEntityLook_run packet st Hwf)
    as (entity & st1 & e & st' & e' & _ & Hres & Hrun & Htouched & _ & _ & _ & _ & (Hid & _) & _).
  exists st'. split; [done|].
  destruct (resolved_lookup _ _ _ _ _ Hres) as (_ & Hheap & _ & _).
  by apply (touched_wf _ _ e _ _ _ (resolved_wf _ _ _ _ _ Hres Hwf) Hheap) in Htouched.
Qed.

Lemma on_entity_move_look_ok (registry : Registry)
    (packet : DownstreamRelativeEntityMovePacketData) (st : State) :
  wf st → ∃ st', on_entity_move_look registry packet st = (Normal (), st') ∧ wf st'.
Proof.
  intros Hwf.
  destruct (onRelativeEntityMovement_ok registry packet st Hwf) as (st1 & Hrun1 & Hwf1).
  destruct (onEntityLook_ok (move_look packet) st1 Hwf1) as (st' & Hrun' & Hwf').
  exists st'. split; [|done].
  unfold on_entity_move_look. by rewrite (bind_normal _ _ _ _ _ Hrun1).
Qed.

Lemma on_entity_teleport_ok (registry : Registry)
    (packet : DownstreamEntityTeleportPacketData) (st : State) :
  wf st → ∃ st', on_entity_teleport registry packet st = (Normal (), st') ∧ wf st'.
Proof.
  intros Hwf.
  destruct (on_entity_teleport_run registry packet st Hwf)
    as (entity & st1 & e & st' & e' & _ & Hres & Hrun & Htouched & _ & _ & _ & _ & (Hid & _) & _).
  exists st'. split; [done|].
  destruct (resolved_lookup _ _ _ _ _ Hres) as (_ & Hheap & _ & _).
  by apply (touched_wf _ _ e _ _ _ (resolved_wf _ _ _ _ _ Hres Hwf) Hheap) in Htouched.
Qed.

(** No packet makes a handler throw, and the invariant holds throughout. *)
Lemma downstream_on_ok (registry : Registry) (packet : Downstream.Packet) (st : State) :
  wf st → ∃ st', downstream_on registry packet st = (Normal (), st') ∧ wf st'.
Proof.
  destruct packet; cbn.
  - apply on_spawn_entity_ok.
  - apply on_entity_velocity_ok.
  - apply on_entity_destroy_ok.
  - apply onRelativeEntityMovement_ok.
  - apply onEntityLook_ok.
  - apply on_entity_move_look_ok.
  - apply on_entity_teleport_ok.
Qed.

Lemma after_wf (registry : Registry) (packets : list Downstream.Packet) :
  ∀ st : State, wf st → wf (after registry packets st).
Proof.
  induction packets as [|packet packets IH]; intros st Hwf; [done|].
  cbn. apply IH.
  destruct (downstream_on_ok registry packet st Hwf) as (st' & -> & Hwf'). done.
Qed.

Lemma reachable_wf (registry : Registry) (packets : list Downstream.Packet) :
  wf (after registry packets initial).
Proof. apply after_wf, wf_initial. Qed.

(** *** Velocity for an id that is not tracked *)

(** The velocity handler returns normally in every state: [getEntity] hands
    it a reference, and a reference is never [undefined]. *)
Lemma on_entity_velocity_returns (packet : DownstreamEntityVelocityPacketData) (st : State) :
  ∃ st', on_entity_velocity packet st = (Normal (), st').
Proof.
  destruct (getEntity_returns st (EntityVelocity.entityId packet)) as (entity & st1 & Hget).
  unfold on_entity_velocity. rewrite (bind_normal _ _ _ _ _ Hget). by eexists.
Qed.

(** For an id that is not tracked it creates the entity, like every other
    handler. *)
Lemma on_entity_velocity_untracked (packet : DownstreamEntityVelocityPacketData)
    (st : State) :
  entities st !! EntityVelocity.entityId packet = None →
  ∃ st' entity,
    on_entity_velocity packet st = (Normal (), st')
    ∧ heap st !! entity = None
    ∧ entities st' !! EntityVelocity.entityId packet = Some entity
    ∧ is_Some (heap st' !! entity).
Proof.
  intros Hnone. eexists _, _. split.
  { unfold on_entity_velocity.
    rewrite (bind_normal _ _ _ _ _ (getEntity_untracked _ _ Hnone)). reflexivity. }
  cbn. split; [apply fresh_unallocated|]. rewrite lookup_insert_eq. split; [done|].
  rewrite !lookup_alter_eq, lookup_insert_eq. by eexists.
Qed.

Lemma onRelativeEntityMovement_untracked (registry : Registry)
    (packet : DownstreamRelativeEntityMovePacketData) (st : State) :
  entities st !! RelativeEntityMove.entityId packet = None →
  ∃ st' entity,
    onRelativeEntityMovement registry packet st = (Normal (), st')
    ∧ heap st !! entity = None
    ∧ entities st' !! RelativeEntityMove.entityId packet = Some entity
    ∧ is_Some (heap st' !! entity).
Proof.
  intros Hnone. unfold onRelativeEntityMovement.
  rewrite (bind_normal _ _ _ _ _ (getEntity_untracked _ _ Hnone)).
  destruct (Registry.supportFeature registry "fixedPointDelta");
    eexists _, _; (split; [reflexivity|]); cbn;
    (split; [apply fresh_unallocated|]); rewrite lookup_insert_eq; (split; [done|]);
    rewrite !lookup_alter_eq, lookup_insert_eq; by eexists.
Qed.

(** C1 (what the code does): on an empty table, a velocity packet for id 7
    does not throw; it returns normally, entity 7 is tracked afterwards with
    the decoded velocity, and [entity.velocity] is emitted for it. *)
Theorem entity_velocity_untracked_creates :
  getEntityById initial 7 = None
  ∧ ∃ st' e,
      on_entity_velocity velocity_7 initial = (Normal (), st')
      ∧ getEntityById st' 7 = Some e
      ∧ Entity.id e = 7%Z
      ∧ Entity.velocity e = Vec3.Build 1 0 0
      ∧ emitted st' =
          [{| event := entity_velocity 1%positive velocity_7; seen := Some e;
              table := entities st' |}].
Proof.
  split; [reflexivity|].
  eexists _, _. split.
  { unfold on_entity_velocity.
    rewrite (bind_normal _ _ _ _ _ (getEntity_untracked initial 7 eq_refl)). reflexivity. }
  unfold getEntityById. cbn.
  rewrite lookup_insert_eq. cbn. rewrite !lookup_alter_eq, lookup_insert_eq. cbn.
  split; [reflexivity|]. split; [reflexivity|]. split; [|reflexivity].
  unfold Vec3.set_x, Vec3.set_y, Vec3.set_z. cbn.
  by rewrite ConversionFacts.decodeNotchianVelocityByte_0,
    ConversionFacts.decodeNotchianVelocityByte_8000.
Qed.

(** *** Pose: absolute position *)

(** C2: a pose application (the pose of a spawn packet, and a teleport) has
    one of three position outcomes, tried in this order: with
    [fixedPointPosition] the position becomes the raw [(x, y, z)] divided by
    32; otherwise with [doublePosition] it becomes the raw [(x, y, z)];
    otherwise it stays what it was.  [e] is the entity as [getEntity] hands
    it to the handler, [e'] the entity tracked when the handler returns. *)
Theorem pose_position_outcome (registry : Registry) (st : State)
    (spawn : DownstreamSpawnEntityPacketData)
    (teleport : DownstreamEntityTeleportPacketData) :
  wf st →
  (∃ entity st1 e st' e',
     getEntity (SpawnEntity.entityId spawn) st = (Normal entity, st1)
     ∧ heap st1 !! entity = Some e
     ∧ on_spawn_entity registry spawn st = (Normal (), st')
     ∧ getEntityById st' (SpawnEntity.entityId spawn) = Some e'
     ∧ Entity.position e' =
         if Registry.supportFeature registry "fixedPointPosition" then
           Vec3.Build (SpawnEntity.x spawn / 32) (SpawnEntity.y spawn / 32)
                      (SpawnEntity.z spawn / 32)
         else if Registry.supportFeature registry "doublePosition" then
           Vec3.Build (SpawnEntity.x spawn) (SpawnEntity.y spawn) (SpawnEntity.z spawn)
         else Entity.position e)
  ∧ (∃ entity st1 e st' e',
     getEntity (EntityTeleport.entityId teleport) st = (Normal entity, st1)
     ∧ heap st1 !! entity = Some e
     ∧ on_entity_teleport registry teleport st = (Normal (), st')
     ∧ getEntityById st' (EntityTeleport.entityId teleport) = Some e'
     ∧ Entity.position e' =
         if Registry.supportFeature registry "fixedPointPosition" then
           Vec3.Build (EntityTeleport.x teleport / 32) (EntityTeleport.y teleport / 32)
                      (EntityTeleport.z teleport / 32)
         else if Registry.supportFeature registry "doublePosition" then
           Vec3.Build (EntityTeleport.x teleport) (EntityTeleport.y teleport)
                      (EntityTeleport.z teleport)
         else Entity.position e).
Proof.
  intros Hwf. split.
  - destruct (on_spawn_entity_run registry spawn st Hwf)
      as (entity & st1 & e & st' & ec & e' & Hget & Hres & Hrun & Htouched & Hc & Hp).
    destruct (resolved_lookup _ _ _ _ _ Hres) as (Hent & Hheap & _ & _).
    exists entity, st1, e, st', e'. repeat (split; [done|]).
    split; [exact (touched_getEntityById _ _ _ _ _ _ Hent Htouched)|].
    destruct Hp as (Hpos & _). destruct Hc as (_ & _ & _ & _ & Hposc & _).
    rewrite Hpos, Hposc. reflexivity.
  - destruct (on_entity_teleport_run registry teleport st Hwf)
      as (entity & st1 & e & st' & e' & Hget & Hres & Hrun & Htouched & Hpos & _).
    destruct (resolved_lookup _ _ _ _ _ Hres) as (Hent & Hheap & _ & _).
    exists entity, st1, e, st', e'. repeat (split; [done|]).
    split; [exact (touched_getEntityById _ _ _ _ _ _ Hent Htouched)|done].
Qed.

(** On an empty table and with fixed-point positions, teleporting entity 42
    to raw (64, 32, -32) puts it at (2, 1, -1). *)
Lemma pose_position_outcome_witness :
  wf initial
  ∧ ∃ st' e',
      on_entity_teleport fixed_point_registry teleport_42 initial = (Normal (), st')
      ∧ getEntityById st' 42 = Some e'
      ∧ Entity.position e' = Vec3.Build 2 1 (-1).
Proof.
  split; [exact wf_initial|].
  destruct (pose_position_outcome fixed_point_registry initial spawn_42 teleport_42
              wf_initial) as (_ & entity & st1 & e & st' & e' & _ & _ & Hrun & He' & Hpos).
  exists st', e'. split; [exact Hrun|]. split; [exact He'|].
  rewrite Hpos. cbn. f_equal; lra.
Defined.

(** *** Relative moves *)

(** C3: a relative move changes the position by [translate] only, by the raw
    delta divided by 32 with [fixedPointDelta] and by [128 * 32] without; the
    raw delta (320, 0, -320) moves the entity by (10, 0, -10) with the
    feature and by (10/128, 0, -10/128) without. *)
Theorem relative_move_translates (registry : Registry)
    (packet : DownstreamRelativeEntityMovePacketData) (st : State) :
  wf st →
  ∃ entity st1 e st' e',
    getEntity (RelativeEntityMove.entityId packet) st = (Normal entity, st1)
    ∧ heap st1 !! entity = Some e
    ∧ onRelativeEntityMovement registry packet st = (Normal (), st')
    ∧ getEntityById st' (RelativeEntityMove.entityId packet) = Some e'
    ∧ Entity.position e' =
        (if Registry.supportFeature registry "fixedPointDelta" then
           Vec3.translate (RelativeEntityMove.dX packet / 32)
             (RelativeEntityMove.dY packet / 32)
             (RelativeEntityMove.dZ packet / 32) (Entity.position e)
         else
           Vec3.translate (RelativeEntityMove.dX packet / (128 * 32))
             (RelativeEntityMove.dY packet / (128 * 32))
             (RelativeEntityMove.dZ packet / (128 * 32)) (Entity.position e))
    ∧ (RelativeEntityMove.dX packet = 320%R →
       RelativeEntityMove.dY packet = 0%R →
       RelativeEntityMove.dZ packet = (-320)%R →
       Entity.position e' =
         if Registry.supportFeature registry "fixedPointDelta" then
           Vec3.Build (Vec3.x (Entity.position e) + 10)
                      (Vec3.y (Entity.position e) + 0)
                      (Vec3.z (Entity.position e) + -10)
         else
           Vec3.Build (Vec3.x (Entity.position e) + 10 / 128)
                      (Vec3.y (Entity.position e) + 0)
                      (Vec3.z (Entity.position e) + -10 / 128)).
Proof.
  intros Hwf.
  destruct (onRelativeEntityMovement_run registry packet st Hwf)
    as (entity & st1 & e & st' & e' & Hget & Hres & Hrun & Htouched & Hpos & _).
  destruct (resolved_lookup _ _ _ _ _ Hres) as (Hent & Hheap & _ & _).
  exists entity, st1, e, st', e'. repeat (split; [done|]).
  split; [exact (touched_getEntityById _ _ _ _ _ _ Hent Htouched)|]. split; [done|].
  intros HdX HdY HdZ. rewrite Hpos, HdX, HdY, HdZ. unfold Vec3.translate.
  destruct (Registry.supportFeature registry "fixedPointDelta"); f_equal; lra.
Qed.

(** On an empty table and with fixed-point deltas, the raw delta
    (320, 0, -320) takes the new entity 42 from the origin to (10, 0, -10). *)
Lemma relative_move_translates_witness :
  wf initial
  ∧ ∃ st' e',
      onRelativeEntityMovement fixed_point_registry move_42 initial = (Normal (), st')
      ∧ getEntityById st' 42 = Some e'
      ∧ Entity.position e' = Vec3.Build 10 0 (-10).
Proof.
  split; [exact wf_initial|].
  destruct (relative_move_translates fixed_point_registry move_42 initial wf_initial)
    as (entity & st1 & e & st' & e' & Hget & He & Hrun & He' & _ & Hpos).
  exists st', e'. split; [exact Hrun|]. split; [exact He'|].
  change (getEntity 42 initial = (Normal entity, st1)) in Hget.
  rewrite (getEntity_untracked initial 42 eq_refl) in Hget.
  injection Hget as <- <-. cbn in He. rewrite lookup_insert_eq in He.
  injection He as <-.
  rewrite (Hpos eq_refl eq_refl eq_refl). cbn. f_equal; lra.
Defined.

(** *** Destroy *)

(** C4: the destroy handler goes through the ids in the listed order; for
    each id it emits exactly one [entity.destroy], for an entity of that id
    whose [isValid] is already [false] (and stays so) and whose id is already
    out of the table; the first time an id that was tracked is met the event
    carries the very object that was tracked; when the [i]-th event is
    emitted exactly the ids listed up to it have been removed, the later
    ones not yet; when the handler returns none of the listed ids is
    tracked, and the other ids are tracked as before. *)
Theorem entity_destroy_batch (packet : DownstreamEntityDestroyPacketData) (st : State) :
  wf st →
  ∃ st' ems,
    on_entity_destroy packet st = (Normal (), st')
    ∧ emitted st' = emitted st ++ ems
    ∧ Forall2 (destroyed packet st') (EntityDestroy.entityIds packet) ems
    ∧ (∀ (i : nat) id entity,
         EntityDestroy.entityIds packet !! i = Some id →
         id ∉ take i (EntityDestroy.entityIds packet) →
         entities st !! id = Some entity →
         ∃ em, ems !! i = Some em ∧ event_entity (event em) = entity)
    ∧ (∀ (i : nat) em, ems !! i = Some em →
         ∀ id, table em !! id =
               if decide (id ∈ take (S i) (EntityDestroy.entityIds packet))
               then None else entities st !! id)
    ∧ (∀ id, id ∈ EntityDestroy.entityIds packet → entities st' !! id = None)
    ∧ (∀ id, id ∉ EntityDestroy.entityIds packet → entities st' !! id = entities st !! id).
Proof.
  intros Hwf. rewrite on_entity_destroy_loop.
  destruct (destroy_loop_run packet (EntityDestroy.entityIds packet) st Hwf)
    as (st' & ems & Hrun & _ & Hems & Hall & Hents & _ & Hfirst & Htables).
  exists st', ems. repeat (split; [done|]). split.
  - intros id Hin. by rewrite Hents, decide_True.
  - intros id Hnin. by rewrite Hents, decide_False.
Qed.

(** Destroying [42; 7] while only 42 is tracked: two events in that order,
    the first one for the object that was tracked, and neither id is tracked
    afterwards. *)
Lemma entity_destroy_batch_witness :
  wf tracking_42
  ∧ ∃ st' em42 em7,
      on_entity_destroy destroy_42_7 tracking_42 = (Normal (), st')
      ∧ emitted st' = [em42; em7]
      ∧ destroyed destroy_42_7 st' 42 em42
      ∧ destroyed destroy_42_7 st' 7 em7
      ∧ event_entity (event em42) = 1%positive
      ∧ getEntityById st' 42 = None
      ∧ getEntityById st' 7 = None.
Proof.
  split; [exact wf_tracking_42|].
  destruct (entity_destroy_batch destroy_42_7 tracking_42 wf_tracking_42)
    as (st' & ems & Hrun & Hems & Hall & Hfirst & _ & Hin & _).
  cbn in Hall.
  apply Forall2_cons_inv_l in Hall as (em42 & ems1 & H42 & Hall & ->).
  apply Forall2_cons_inv_l in Hall as (em7 & ems2 & H7 & Hall & ->).
  apply Forall2_nil_inv_l in Hall as ->.
  exists st', em42, em7. repeat (split; [done|]). split.
  - destruct (Hfirst 0%nat 42%Z 1%positive eq_refl) as (em & Hem & Hr).
    + cbn. apply not_elem_of_nil.
    + reflexivity.
    + by injection Hem as <-.
  - unfold getEntityById. rewrite !Hin; [done|cbn..].
    + right. left.
    + left.
Defined.

(** One iteration of the loop for an id that is not tracked, in any state. *)
Lemma destroy_untracked_run (packet : DownstreamEntityDestroyPacketData) (st : State)
    (id : Z) :
  entities st !! id = None →
  destroy_iteration packet id st =
    (Normal (),
     {| heap := alter (Entity.set_isValid false) (fresh (dom (heap st)))
                  (<[fresh (dom (heap st)) := Entity.new id]> (heap st));
        entities := entities st;
        emitted := emitted st ++
          [{| event := entity_destroy (fresh (dom (heap st))) packet;
              seen := Some (Entity.set_isValid false (Entity.new id));
              table := entities st |}] |}).
Proof.
  intros Hnone. unfold destroy_iteration.
  rewrite (bind_normal _ _ _ _ _ (getEntity_untracked _ _ Hnone)).
  unfold mbind, M_bind, assign, entities_delete, emit. cbn.
  by rewrite lookup_alter_eq, lookup_insert_eq, delete_insert_id.
Qed.

(** A batch of one id is one iteration. *)
Lemma destroy_single (packet : DownstreamEntityDestroyPacketData) (st : State) (id : Z) :
  EntityDestroy.entityIds packet = [id] →
  on_entity_destroy packet st = destroy_iteration packet id st.
Proof.
  intros Hids. rewrite on_entity_destroy_loop, Hids. cbn.
  unfold mbind, M_bind. destruct (destroy_iteration packet id st) as [[[]|err] st']; done.
Qed.

(** C5 (amended): destroying an id that is not tracked (one turn of the
    loop, and so a packet that lists just that id) leaves the table of
    tracked ids and every existing entity object as they were; it creates an
    object for the id, invalid and not tracked, and emits one
    [entity.destroy] that carries it. *)
Theorem destroy_untracked_table_unchanged (packet : DownstreamEntityDestroyPacketData)
    (st : State) (id : Z) :
  entities st !! id = None →
  ∃ st',
    destroy_iteration packet id st = (Normal (), st')
    ∧ (EntityDestroy.entityIds packet = [id] →
         on_entity_destroy packet st = (Normal (), st'))
    ∧ entities st' = entities st
    ∧ (∀ r, is_Some (heap st !! r) → heap st' !! r = heap st !! r)
    ∧ emitted st' =
        emitted st ++
        [{| event := entity_destroy (fresh (dom (heap st))) packet;
            seen := Some (Entity.set_isValid false (Entity.new id));
            table := entities st |}].
Proof.
  intros Hnone. eexists. split; [by apply destroy_untracked_run|].
  split; [intros Hids; rewrite (destroy_single _ _ _ Hids); by apply destroy_untracked_run|].
  cbn. split; [done|]. split; [|done].
  intros r [e0 He0].
  assert (fresh (dom (heap st)) ≠ r) as Hne
    by (intros <-; by rewrite fresh_unallocated in He0).
  by rewrite lookup_alter_ne, lookup_insert_ne.
Qed.

(** Destroying the untracked id 7 while 42 is tracked. *)
Lemma destroy_untracked_table_unchanged_witness :
  entities tracking_42 !! 7%Z = None
  ∧ ∃ st',
      on_entity_destroy destroy_7 tracking_42 = (Normal (), st')
      ∧ entities st' = entities tracking_42
      ∧ heap st' !! 1%positive = heap tracking_42 !! 1%positive
      ∧ length (emitted st') = 1%nat.
Proof.
  split; [reflexivity|].
  destruct (destroy_untracked_table_unchanged destroy_7 tracking_42 7 eq_refl)
    as (st' & _ & Hrun & Hents & Hheap & Hems).
  exists st'. split; [exact (Hrun eq_refl)|]. split; [exact Hents|].
  split; [apply Hheap; by eexists|]. by rewrite Hems.
Defined.

(** C5 (as stated) fails: on the empty table, destroying the untracked id 7
    leaves the table as it was, but it is observable: subscribers of
    [entity.destroy] are called once, with an entity made for the occasion. *)
Lemma destroy_untracked_observable :
  entities initial !! 7%Z = None
  ∧ ∃ st',
      on_entity_destroy destroy_7 initial = (Normal (), st')
      ∧ entities st' = entities initial
      ∧ emitted st' =
          [{| event := entity_destroy 1%positive destroy_7;
              seen := Some (Entity.set_isValid false (Entity.new 7));
              table := ∅ |}]
      ∧ emitted st' ≠ emitted initial.
Proof.
  split; [reflexivity|]. eexists.
  split; [rewrite (destroy_single destroy_7 initial 7 eq_refl);
          exact (destroy_untracked_run destroy_7 initial 7 eq_refl)|].
  cbn. split; [done|]. split; [done|]. discriminate.
Qed.

(** *** Spawn *)

(** C9: a spawn never fails.  When the type code is not in the type
    registry the entity gets [name = "unknown"], [type = "other"],
    [entityType] the code itself, [displayName] and [kind] ["unknown"]; when it
    is, the classification fields are those of the registry entry. *)
Theorem spawn_classification (registry : Registry)
    (packet : DownstreamSpawnEntityPacketData) (st : State) :
  wf st →
  ∃ st' e,
    on_spawn_entity registry packet st = (Normal (), st')
    ∧ getEntityById st' (SpawnEntity.entityId packet) = Some e
    ∧ Entity.uuid e = Some (SpawnEntity.objectUUID packet)
    ∧ (Registry.entities registry !! SpawnEntity.type packet = None →
         Entity.name e = Some "unknown"
         ∧ Entity.type e = Some "other"
         ∧ Entity.entityType e = Some (SpawnEntity.type packet)
         ∧ Entity.displayName e = Some "unknown"
         ∧ Entity.kind e = Some "unknown")
    ∧ (∀ data, Registry.entities registry !! SpawnEntity.type packet = Some data →
         Entity.name e = Some (Registry.name data)
         ∧ Entity.type e = Some (Registry.type data)
         ∧ Entity.entityType e = Some (Registry.id data)
         ∧ Entity.displayName e = Some (Registry.displayName data)
         ∧ Entity.kind e = Some (Registry.category data)
         ∧ Entity.height e = Some (Registry.height data)
         ∧ Entity.width e = Some (Registry.width data)).
Proof.
  intros Hwf.
  destruct (on_spawn_entity_run registry packet st Hwf)
    as (entity & st1 & e & st' & ec & e' & Hget & Hres & Hrun & Htouched & Hc & Hp).
  destruct (resolved_lookup _ _ _ _ _ Hres) as (Hent & _).
  exists st', e'. split; [done|].
  split; [exact (touched_getEntityById _ _ _ _ _ _ Hent Htouched)|].
  destruct Hc as (Hnone & Hsome & (_ & Huc & _) & _).
  destruct Hp as (_ & _ & _ & _ & (_ & Hup & _) & Ht & Het & _ & Hn & Hdn & Hk & Hh & Hw).
  rewrite Hup, Huc, Ht, Het, Hn, Hdn, Hk, Hh, Hw. split; [reflexivity|]. split.
  - intros Hno. destruct (Hnone Hno) as (? & ? & ? & ? & ? & ? & _). done.
  - intros data Hdata. destruct (Hsome data Hdata) as (? & ? & ? & ? & ? & ? & ? & _). done.
Qed.

(** Spawning entity 42 with uuid "u1" and the type code 999, which the type
    registry does not know. *)
Lemma spawn_classification_witness :
  wf initial
  ∧ ∃ st' e,
      on_spawn_entity fixed_point_registry spawn_42 initial = (Normal (), st')
      ∧ getEntityById st' 42 = Some e
      ∧ Entity.uuid e = Some "u1"
      ∧ Entity.name e = Some "unknown"
      ∧ Entity.type e = Some "other"
      ∧ Entity.entityType e = Some 999%Z.
Proof.
  split; [exact wf_initial|].
  destruct (spawn_classification fixed_point_registry spawn_42 initial wf_initial)
    as (st' & e & Hrun & He & Hu & Hnone & _).
  destruct (Hnone eq_refl) as (Hn & Ht & Het & _).
  exists st', e. split; [exact Hrun|]. split; [exact He|]. split; [exact Hu|].
  split; [exact Hn|]. split; [exact Ht|exact Het].
Defined.

(** *** Look *)

(** C10: for an entity that is tracked, a look packet sets its [yaw] and
    [pitch] to the decoded angle bytes and changes no other field of it; the
    table of tracked ids and every other entity object are as before. *)
Theorem entity_look_frame (packet : DownstreamEntityLookPacketData) (st : State)
    (entity : ref) (e : Entity) :
  entities st !! EntityLook.entityId packet = Some entity →
  heap st !! entity = Some e →
  ∃ st' e',
    onEntityLook packet st = (Normal (), st')
    ∧ heap st' !! entity = Some e'
    ∧ Entity.yaw e' = decodeNotchianYawByte (EntityLook.yaw packet)
    ∧ Entity.pitch e' = decodeNotchianPitchByte (EntityLook.pitch packet)
    ∧ Entity.position e' = Entity.position e
    ∧ Entity.velocity e' = Entity.velocity e
    ∧ Entity.uuid e' = Entity.uuid e
    ∧ Entity.type e' = Entity.type e
    ∧ Entity.entityType e' = Entity.entityType e
    ∧ Entity.mobType e' = Entity.mobType e
    ∧ Entity.name e' = Entity.name e
    ∧ Entity.displayName e' = Entity.displayName e
    ∧ Entity.kind e' = Entity.kind e
    ∧ Entity.height e' = Entity.height e
    ∧ Entity.width e' = Entity.width e
    ∧ Entity.id e' = Entity.id e
    ∧ Entity.isValid e' = Entity.isValid e
    ∧ entities st' = entities st
    ∧ ∀ other : ref, other ≠ entity → heap st' !! other = heap st !! other.
Proof.
  intros Hent Hheap. eexists _, _. split.
  { unfold onEntityLook. rewrite (bind_normal _ _ _ _ _ (getEntity_tracked _ _ _ Hent)).
    reflexivity. }
  cbn. rewrite !lookup_alter_eq, Hheap. cbn.
  repeat (split; [reflexivity|]).
  intros other Hne. by rewrite !lookup_alter_ne.
Qed.

(** A look packet for the tracked entity 42: it still stands at the origin,
    at rest, and the table is as it was. *)
Lemma entity_look_frame_witness :
  entities tracking_42 !! 42%Z = Some 1%positive
  ∧ heap tracking_42 !! 1%positive = Some (Entity.new 42)
  ∧ ∃ st' e',
      onEntityLook look_42 tracking_42 = (Normal (), st')
      ∧ getEntityById st' 42 = Some e'
      ∧ Entity.yaw e' = decodeNotchianYawByte 64
      ∧ Entity.pitch e' = decodeNotchianPitchByte 32
      ∧ Entity.position e' = Vec3.Build 0 0 0
      ∧ Entity.velocity e' = Vec3.Build 0 0 0
      ∧ entities st' = entities tracking_42.
Proof.
  split; [reflexivity|]. split; [reflexivity|].
  destruct (entity_look_frame look_42 tracking_42 1%positive (Entity.new 42) eq_refl eq_refl)
    as (st' & e' & Hrun & He' & Hyaw & Hpitch & Hpos & Hvel & _ & _ & _ & _ & _ & _ & _ &
        _ & _ & _ & _ & Hents & _).
  exists st', e'. split; [exact Hrun|]. split.
  { unfold getEntityById. rewrite Hents. exact He'. }
  by rewrite Hpos, Hvel.
Defined.

End TrackerFacts.

(** ** Further properties of the conversions *)

Module ConversionMore.
Import Conversion ConversionFacts.
Local Open Scope R_scope.

Lemma small_multiple_zero (k : Z) (d : R) :
  0 < d -> - d < IZR k * d < d -> k = 0%Z.
Proof.
  intros Hd [Hlo Hhi].
  assert (-1 < IZR k) as H1 by nra.
  assert (IZR k < 1) as H2 by nra.
  apply (lt_IZR (-1) k) in H1. apply (lt_IZR k 1) in H2. lia.
Qed.

Lemma representative_unique (a b d : R) (k : Z) :
  0 < d -> 0 <= a < d -> 0 <= b < d -> a - b = IZR k * d -> a = b.
Proof.
  intros Hd Ha Hb Hk.
  assert (k = 0%Z) as -> by (apply (small_multiple_zero k d Hd); lra).
  lra.
Qed.

Lemma euclidianMod_characterised (n d r : R) (k : Z) :
  0 < d -> 0 <= r < d -> r - n = IZR k * d -> euclidianMod n d = r.
Proof.
  intros Hd Hr Hk.
  destruct (euclidianMod_multiple n d) as [k' Hk'].
  apply (representative_unique _ _ d (k' - k) Hd (euclidianMod_range n d Hd) Hr).
  rewrite minus_IZR. lra.
Qed.

(** X2: for a positive denominator [euclidianMod n d] is the floored
    remainder [n - d * floor (n / d)], whatever the sign of [n]. *)
Theorem euclidianMod_floor (n d : number) :
  0 < d -> euclidianMod n d = n - d * IZR (Int_part (n / d)).
Proof.
  intros Hd.
  apply (euclidianMod_characterised n d _ (- Int_part (n / d)) Hd).
  - destruct (base_Int_part (n / d)) as [Hlo Hhi].
    assert (d * (n / d) = n) as Hq by (apply quotient_times; lra).
    assert (d * IZR (Int_part (n / d)) <= d * (n / d)) by (apply Rmult_le_compat_l; lra).
    assert (d * (n / d) < d * (IZR (Int_part (n / d)) + 1)) by (apply Rmult_lt_compat_l; lra).
    lra.
  - rewrite opp_IZR. lra.
Qed.

Lemma euclidianMod_shift (n d : number) (k : Z) :
  0 < d -> euclidianMod (n + IZR k * d) d = euclidianMod n d.
Proof.
  intros Hd. destruct (euclidianMod_multiple n d) as [k' Hk'].
  apply (euclidianMod_characterised _ d _ (k' - k) Hd (euclidianMod_range n d Hd)).
  rewrite minus_IZR. lra.
Qed.

(** X3: for a positive denominator, adding a whole number of denominators
    to the numerator does not change [euclidianMod]. *)
Theorem euclidianMod_periodic (n d : number) (k : Z) :
  0 < d -> euclidianMod (n + IZR k * d) d = euclidianMod n d.
Proof.
  intros Hd. apply euclidianMod_shift. exact Hd.
Qed.

(** X4: [euclidianMod] leaves a numerator that is already in [[0, d)] as it
    is, so applying it twice is applying it once. *)
Theorem euclidianMod_fixes_range (n d : number) :
  0 <= n < d -> euclidianMod n d = n /\ euclidianMod (euclidianMod n d) d = euclidianMod n d.
Proof.
  intros Hn. assert (0 < d) as Hd by lra.
  assert (euclidianMod n d = n) as H.
  { apply (euclidianMod_characterised n d n 0 Hd Hn). lra. }
  by rewrite !H.
Qed.

Lemma Int_part_0 : Int_part 0 = 0%Z.
Proof.
  destruct (base_Int_part 0) as [Hlo Hhi].
  assert (IZR (Int_part 0) < 1) as H1 by lra.
  assert (-1 < IZR (Int_part 0)) as H2 by lra.
  apply (lt_IZR _ 1) in H1. apply (lt_IZR (-1)) in H2. lia.
Qed.

Lemma euclidianMod_0 (d : number) : euclidianMod 0 d = 0.
Proof.
  unfold euclidianMod, rem, trunc. cbv zeta.
  replace (0 / d) with 0 by (unfold Rdiv; lra).
  destruct (Rle_dec 0 0) as [_|Hn]; [|lra].
  rewrite Int_part_0. destruct (Rlt_dec _ 0); lra.
Qed.

(** X5: a negative denominator is not handled as a modulus: a non-negative
    numerator gives the remainder, in [[0, -d)], and a negative numerator
    gives 0 or a value below the denominator, in [(2 d, d)]. *)
Theorem euclidianMod_negative_denominator (n d : number) :
  d < 0 ->
  (0 <= n -> 0 <= euclidianMod n d < - d)
  /\ (n < 0 -> euclidianMod n d = 0 \/ 2 * d < euclidianMod n d < d).
Proof.
  intros Hd.
  assert (d * (n / d) = n) as Hq by (apply quotient_times; lra).
  split; intros Hn.
  - destruct (Req_dec n 0) as [->|Hne]; [rewrite euclidianMod_0; lra|].
    assert (n / d < 0) as Hlt by nra.
    destruct (trunc_neg _ Hlt) as [Hlo Hhi].
    unfold euclidianMod, rem. cbv zeta.
    set (q := IZR (trunc (n / d))) in *.
    assert (d * q <= d * (n / d)) by nra.
    assert (d * (n / d + 1) < d * q) by nra.
    destruct (Rlt_dec (n - d * q) 0); lra.
  - assert (0 <= n / d) as Hp by nra.
    destruct (trunc_nonneg _ Hp) as [Hlo Hhi].
    unfold euclidianMod, rem. cbv zeta.
    set (q := IZR (trunc (n / d))) in *.
    assert (d * (n / d) <= d * q) by nra.
    assert (d * (q + 1) < d * (n / d)) by nra.
    destruct (Rlt_dec (n - d * q) 0); lra.
Qed.

Lemma TAU_nonzero : TAU <> 0.
Proof. pose proof TAU_pos. lra. Qed.

(** X1: [toDegrees] and [toRadians] undo each other, in both orders. *)
Theorem degrees_radians_round_trip (angle : number) :
  toDegrees (toRadians angle) = angle /\ toRadians (toDegrees angle) = angle.
Proof.
  unfold toDegrees, toRadians, RAD_TO_DEG, DEG_TO_RAD, number.
  split; field; exact TAU_nonzero.
Qed.

Lemma byte_radians (byte : number) :
  toRadians (byte * NOTCH_BYTE_TO_RAD) = byte * Rtrigo1.PI / 128.
Proof. unfold toRadians, NOTCH_BYTE_TO_RAD, DEG_TO_RAD, TAU, PI, number. field. Qed.

Lemma yaw_byte_form (byte : number) :
  (-128 < byte <= 128 -> decodeNotchianYawByte byte = Rtrigo1.PI - byte * Rtrigo1.PI / 128)
  /\ (128 < byte <= 384 ->
      decodeNotchianYawByte byte = 3 * Rtrigo1.PI - byte * Rtrigo1.PI / 128).
Proof.
  pose proof PI_RGT_0 as Hpi. pose proof TAU_pos as Htau.
  unfold decodeNotchianYawByte, decodeNotchianYaw. rewrite byte_radians.
  unfold TAU, PI in *. split; intros Hb.
  - apply (euclidianMod_characterised _ _ _ 0 Htau); [nra|lra].
  - apply (euclidianMod_characterised _ _ _ 1 Htau); [nra|lra].
Qed.

(** X6: the yaw of a byte in closed form: [PI - byte * PI / 128] for a byte
    in [(-128, 128]], and [3 PI - byte * PI / 128] for a byte in [(128, 384]]. *)
Theorem decodeNotchianYawByte_closed_form (byte : number) :
  (-128 < byte <= 128 -> decodeNotchianYawByte byte = Rtrigo1.PI - byte * Rtrigo1.PI / 128)
  /\ (128 < byte <= 384 ->
      decodeNotchianYawByte byte = 3 * Rtrigo1.PI - byte * Rtrigo1.PI / 128).
Proof.
  destruct (yaw_byte_form byte) as [Hlow Hhigh].
  split; [exact Hlow|exact Hhigh].
Qed.

Lemma pitch_byte_form (byte : number) :
  (-128 < byte <= 128 -> decodeNotchianPitchByte byte = - (byte * Rtrigo1.PI / 128))
  /\ (128 < byte <= 384 ->
      decodeNotchianPitchByte byte = 2 * Rtrigo1.PI - byte * Rtrigo1.PI / 128).
Proof.
  pose proof PI_RGT_0 as Hpi. pose proof TAU_pos as Htau.
  unfold decodeNotchianPitchByte, decodeNotchianPitch.
  replace (toRadians (- (byte * NOTCH_BYTE_TO_RAD)))
    with (- toRadians (byte * NOTCH_BYTE_TO_RAD)) by (unfold toRadians; lra).
  rewrite byte_radians.
  unfold TAU, PI in *. split; intros Hb.
  - rewrite (euclidianMod_characterised _ _ (Rtrigo1.PI - byte * Rtrigo1.PI / 128) 0 Htau);
      [lra|nra|lra].
  - rewrite (euclidianMod_characterised _ _ (3 * Rtrigo1.PI - byte * Rtrigo1.PI / 128) 1 Htau);
      [lra|nra|lra].
Qed.

(** X7: the pitch of a byte in closed form: [- byte * PI / 128] for a byte
    in [(-128, 128]], and [2 PI - byte * PI / 128] for a byte in [(128, 384]]. *)
Theorem decodeNotchianPitchByte_closed_form (byte : number) :
  (-128 < byte <= 128 -> decodeNotchianPitchByte byte = - (byte * Rtrigo1.PI / 128))
  /\ (128 < byte <= 384 ->
      decodeNotchianPitchByte byte = 2 * Rtrigo1.PI - byte * Rtrigo1.PI / 128).
Proof.
  destruct (pitch_byte_form byte) as [Hlow Hhigh].
  split; [exact Hlow|exact Hhigh].
Qed.

(** X9: on [[0, 256)] the byte decoders are injective: two different bytes
    never decode to the same yaw, nor to the same pitch. *)
Theorem decodeNotchian_byte_injective (b1 b2 : number) :
  0 <= b1 < 256 -> 0 <= b2 < 256 ->
  (decodeNotchianYawByte b1 = decodeNotchianYawByte b2 -> b1 = b2)
  /\ (decodeNotchianPitchByte b1 = decodeNotchianPitchByte b2 -> b1 = b2).
Proof.
  intros H1 H2. pose proof PI_RGT_0 as Hpi.
  destruct (yaw_byte_form b1) as [Y1a Y1b].
  destruct (yaw_byte_form b2) as [Y2a Y2b].
  destruct (pitch_byte_form b1) as [P1a P1b].
  destruct (pitch_byte_form b2) as [P2a P2b].
  destruct (Rle_dec b1 128) as [L1|L1], (Rle_dec b2 128) as [L2|L2].
  - rewrite Y1a, Y2a, P1a, P2a by lra. split; intros; nra.
  - rewrite Y1a, Y2b, P1a, P2b by lra. split; intros; nra.
  - rewrite Y1b, Y2a, P1b, P2a by lra. split; intros; nra.
  - rewrite Y1b, Y2b, P1b, P2b by lra. split; intros; nra.
Qed.

Lemma euclidianMod_floor_witness :
  0 < 3 /\ euclidianMod (-7) 3 = -7 - 3 * IZR (Int_part (-7 / 3)).
Proof. split; [lra | apply (euclidianMod_floor (-7) 3); lra]. Defined.

Lemma euclidianMod_periodic_witness :
  0 < 3 /\ euclidianMod (1 + IZR 5 * 3) 3 = euclidianMod 1 3.
Proof. split; [lra | apply (euclidianMod_periodic 1 3 5); lra]. Defined.

Lemma euclidianMod_fixes_range_witness :
  0 <= 1 < 3 /\ euclidianMod 1 3 = 1.
Proof. split; [lra | apply (euclidianMod_fixes_range 1 3); lra]. Defined.

Lemma euclidianMod_negative_denominator_witness :
  -3 < 0 /\ -1 < 0
  /\ (euclidianMod (-1) (-3) = 0 \/ 2 * -3 < euclidianMod (-1) (-3) < -3).
Proof.
  split; [lra|]. split; [lra|].
  apply (proj2 (euclidianMod_negative_denominator (-1) (-3) ltac:(lra))). lra.
Defined.

Lemma decodeNotchianYawByte_closed_form_witness :
  -128 < 64 <= 128 /\ 128 < 192 <= 384
  /\ decodeNotchianYawByte 64 = Rtrigo1.PI / 2
  /\ decodeNotchianYawByte 192 = 3 * Rtrigo1.PI / 2.
Proof.
  split; [lra|]. split; [lra|].
  destruct (decodeNotchianYawByte_closed_form 64) as [H64 _].
  destruct (decodeNotchianYawByte_closed_form 192) as [_ H192].
  rewrite H64, H192 by lra. split; lra.
Defined.

Lemma decodeNotchianPitchByte_closed_form_witness :
  -128 < 64 <= 128 /\ 128 < 192 <= 384
  /\ decodeNotchianPitchByte 64 = - (Rtrigo1.PI / 2)
  /\ decodeNotchianPitchByte 192 = Rtrigo1.PI / 2.
Proof.
  split; [lra|]. split; [lra|].
  destruct (decodeNotchianPitchByte_closed_form 64) as [H64 _].
  destruct (decodeNotchianPitchByte_closed_form 192) as [_ H192].
  rewrite H64, H192 by lra. split; lra.
Defined.

Lemma decodeNotchian_byte_injective_witness :
  0 <= 0 < 256 /\ 0 <= 128 < 256
  /\ decodeNotchianYawByte 0 <> decodeNotchianYawByte 128.
Proof.
  split; [lra|]. split; [lra|]. intros H.
  apply (proj1 (decodeNotchian_byte_injective 0 128 ltac:(lra) ltac:(lra))) in H. lra.
Defined.
End ConversionMore.

(** ** Further properties of the tracker *)

Module TrackerMore.
Import Conversion ConversionFacts TrackerFacts.

Lemma normalized_new (id : Z) : normalized (Entity.new id).
Proof. unfold normalized. cbn. pose proof PI_RGT_0. lra. Qed.

Lemma normalized_decoded (e : Entity) (yaw pitch : number) :
  Entity.yaw e = decodeNotchianYawByte yaw →
  Entity.pitch e = decodeNotchianPitchByte pitch →
  normalized e.
Proof.
  unfold normalized. intros -> ->. split.
  - apply (decodeNotchianYaw_range (yaw * NOTCH_BYTE_TO_RAD)).
  - apply (decodeNotchianPitch_range (pitch * NOTCH_BYTE_TO_RAD)).
Qed.

Lemma normalized_same (e e' : Entity) :
  same_orientation e e' → normalized e → normalized e'.
Proof. intros [Hy Hp]. unfold normalized. by rewrite Hy, Hp. Qed.

Lemma resolved_sound (st st1 : State) (id : Z) (entity : ref) (e : Entity) :
  resolved st id entity st1 e → sound st →
  sound st1 ∧ Entity.isValid e = true ∧ normalized e.
Proof.
  intros Hres (Hwf & Hvalid & Hnorm).
  destruct (resolved_lookup _ _ _ _ _ Hres) as (Hent & Hheap & _ & _).
  assert (Entity.isValid e = true ∧ normalized e) as [Hv Hn].
  { destruct Hres as [entity e He Hh _|Hnone]; [by eauto|].
    split; [done|apply normalized_new]. }
  split; [|done]. split; [exact (resolved_wf _ _ _ _ _ Hres Hwf)|]. split.
  - intros id' r e' Hr He'.
    destruct (decide (r = entity)) as [->|Hne]; [congruence|].
    destruct Hres as [|Hnone]; [by eauto|]. cbn in *.
    rewrite lookup_insert_ne in He' by done.
    rewrite lookup_insert in Hr. case_decide; [congruence|]. by eauto.
  - intros r e' He'.
    destruct (decide (r = entity)) as [->|Hne]; [congruence|].
    destruct Hres as [|Hnone]; [by eauto|]. cbn in *.
    rewrite lookup_insert_ne in He' by done. by eauto.
Qed.

Lemma touched_sound (st st1 st' : State) (id : Z) (entity : ref) (ev : Event)
    (e e' : Entity) :
  sound st → resolved st id entity st1 e → touched entity ev e' st1 st' →
  Entity.id e' = Entity.id e → Entity.isValid e' = Entity.isValid e → normalized e' →
  sound st'.
Proof.
  intros Hsound Hres Htouched Hid Hvalid Hnorm.
  destruct (resolved_sound _ _ _ _ _ Hres Hsound) as ((Hwf1 & Hvalid1 & Hnorm1) & Hv & Hn).
  destruct (resolved_lookup _ _ _ _ _ Hres) as (Hent & Hheap & _ & _).
  split; [exact (touched_wf _ _ _ _ _ _ Hwf1 Hheap Hid Htouched)|].
  destruct Htouched as (Hents & Hothers & He' & _). split.
  - intros id' r e'' Hr He''. rewrite Hents in Hr.
    destruct (decide (r = entity)) as [->|Hne]; [congruence|].
    rewrite Hothers in He'' by done. by eauto.
  - intros r e'' He''.
    destruct (decide (r = entity)) as [->|Hne]; [congruence|].
    rewrite Hothers in He'' by done. by eauto.
Qed.

(** *** The invariant is kept by every handler *)

Lemma on_spawn_entity_sound (registry : Registry) (packet : DownstreamSpawnEntityPacketData)
    (st : State) :
  sound st → ∃ st', on_spawn_entity registry packet st = (Normal (), st') ∧ sound st'.
Proof.
  intros Hsound.
  destruct (on_spawn_entity_run registry packet st (proj1 Hsound))
    as (entity & st1 & e & st' & ec & e' & _ & Hres & Hrun & Htouched & Hc & Hp).
  exists st'. split; [done|].
  destruct Hc as (_ & _ & (Hidc & _ & Hvc) & _).
  destruct Hp as (_ & Hyaw & Hpitch & _ & (Hidp & _ & Hvp) & _).
  apply (touched_sound _ _ _ _ _ _ _ _ Hsound Hres Htouched).
  - by rewrite Hidp, Hidc.
  - by rewrite Hvp, Hvc.
  - exact (normalized_decoded _ _ _ Hyaw Hpitch).
Qed.

Lemma on_entity_velocity_sound (packet : DownstreamEntityVelocityPacketData) (st : State) :
  sound st → ∃ st', on_entity_velocity packet st = (Normal (), st') ∧ sound st'.
Proof.
  intros Hsound.
  destruct (on_entity_velocity_run packet st (proj1 Hsound))
    as (entity & st1 & e & st' & e' & _ & Hres & Hrun & Htouched & _ & _ & Hor &
        (Hid & _ & Hv) & _).
  exists st'. split; [done|].
  apply (touched_sound _ _ _ _ _ _ _ _ Hsound Hres Htouched Hid Hv).
  apply (normalized_same _ _ Hor). by destruct (resolved_sound _ _ _ _ _ Hres Hsound) as (_ & _ & ?).
Qed.

Lemma onRelativeEntityMovement_sound (registry : Registry)
    (packet : DownstreamRelativeEntityMovePacketData) (st : State) :
  sound st → ∃ st', onRelativeEntityMovement registry packet st = (Normal (), st') ∧ sound st'.
Proof.
  intros Hsound.
  destruct (onRelativeEntityMovement_run registry packet st (proj1 Hsound))
    as (entity & st1 & e & st' & e' & _ & Hres & Hrun & Htouched & _ & _ & Hor &
        (Hid & _ & Hv) & _).
  exists st'. split; [done|].
  apply (touched_sound _ _ _ _ _ _ _ _ Hsound Hres Htouched Hid Hv).
  apply (normalized_same _ _ Hor). by destruct (resolved_sound _ _ _ _ _ Hres Hsound) as (_ & _ & ?).
Qed.

Lemma onEntityLook_sound (packet : DownstreamEntityLookPacketData) (st : State) :
  sound st → ∃ st', onEntityLook packet st = (Normal (), st') ∧ sound st'.
Proof.
  intros Hsound.
  destruct (onEntityLook_run packet st (proj1 Hsound))
    as (entity & st1 & e & st' & e' & _ & Hres & Hrun & Htouched & Hyaw & Hpitch & _ & _ &
        (Hid & _ & Hv) & _).
  exists st'. split; [done|].
  apply (touched_sound _ _ _ _ _ _ _ _ Hsound Hres Htouched Hid Hv).
  exact (normalized_decoded _ _ _ Hyaw Hpitch).
Qed.

Lemma on_entity_teleport_sound (registry : Registry)
    (packet : DownstreamEntityTeleportPacketData) (st : State) :
  sound st → ∃ st', on_entity_teleport registry packet st = (Normal (), st') ∧ sound st'.
Proof.
  intros Hsound.
  destruct (on_entity_teleport_run registry packet st (proj1 Hsound))
    as (entity & st1 & e & st' & e' & _ & Hres & Hrun & Htouched & _ & Hyaw & Hpitch & _ &
        (Hid & _ & Hv) & _).
  exists st'. split; [done|].
  apply (touched_sound _ _ _ _ _ _ _ _ Hsound Hres Htouched Hid Hv).
  exact (normalized_decoded _ _ _ Hyaw Hpitch).
Qed.

Lemma on_entity_move_look_sound (registry : Registry)
    (packet : DownstreamRelativeEntityMovePacketData) (st : State) :
  sound st → ∃ st', on_entity_move_look registry packet st = (Normal (), st') ∧ sound st'.
Proof.
  intros Hsound.
  destruct (onRelativeEntityMovement_sound registry packet st Hsound) as (st1 & Hrun1 & Hs1).
  destruct (onEntityLook_sound (move_look packet) st1 Hs1) as (st' & Hrun' & Hs').
  exists st'. split; [|done].
  unfold on_entity_move_look. by rewrite (bind_normal _ _ _ _ _ Hrun1).
Qed.

Lemma destroy_iteration_sound (packet : DownstreamEntityDestroyPacketData) (id : Z)
    (st : State) :
  sound st → ∃ st', destroy_iteration packet id st = (Normal (), st') ∧ sound st'.
Proof.
  intros Hsound.
  destruct (destroy_iteration_run packet id st (proj1 Hsound))
    as (entity & st1 & e & Hget & Hres & Hrun).
  eexists. split; [exact Hrun|].
  destruct (destroy_iteration_keeps packet id st _ (proj1 Hsound) Hrun) as (Hwf' & _).
  destruct (resolved_sound _ _ _ _ _ Hres Hsound) as ((Hwf1 & Hvalid1 & Hnorm1) & Hv & Hn).
  destruct (resolved_lookup _ _ _ _ _ Hres) as (Hent & Hheap & Hid & _).
  split; [exact Hwf'|]. cbn. split.
  - intros id' r e' Hr He'. rewrite lookup_delete in Hr.
    case_decide as Hne; [done|].
    assert (entities st1 !! id' = Some r) as Hr1
      by (by rewrite (resolved_entities _ _ _ _ _ id' Hres)).
    destruct (decide (entity = r)) as [->|Hner].
    + destruct (Hwf1 _ _ Hr1) as (e0 & He0 & Hid0). congruence.
    + rewrite lookup_alter_ne in He' by done. by eauto.
  - intros r e' He'.
    destruct (decide (entity = r)) as [->|Hner].
    + rewrite lookup_alter_eq, Hheap in He'. injection He' as <-. exact Hn.
    + rewrite lookup_alter_ne in He' by done. by eauto.
Qed.

Lemma destroy_loop_sound (packet : DownstreamEntityDestroyPacketData) (ids : list Z) :
  ∀ st, sound st →
  ∃ st', for_of ids (destroy_iteration packet) st = (Normal (), st') ∧ sound st'.
Proof.
  induction ids as [|id ids IH]; intros st Hsound; [by exists st|].
  destruct (destroy_iteration_sound packet id st Hsound) as (st1 & Hrun1 & Hs1).
  destruct (IH st1 Hs1) as (st' & Hrun' & Hs').
  exists st'. split; [|done]. cbn. by rewrite (bind_normal _ _ _ _ _ Hrun1).
Qed.

Lemma downstream_on_sound (registry : Registry) (packet : Downstream.Packet) (st : State) :
  sound st → ∃ st', downstream_on registry packet st = (Normal (), st') ∧ sound st'.
Proof.
  destruct packet; cbn.
  - apply on_spawn_entity_sound.
  - apply on_entity_velocity_sound.
  - rewrite on_entity_destroy_loop. apply destroy_loop_sound.
  - apply onRelativeEntityMovement_sound.
  - apply onEntityLook_sound.
  - apply on_entity_move_look_sound.
  - apply on_entity_teleport_sound.
Qed.

Lemma sound_initial : sound initial.
Proof.
  split; [apply wf_initial|]. split.
  - intros id entity e. cbn. by rewrite lookup_empty.
  - intros entity e. cbn. by rewrite lookup_empty.
Qed.

Lemma after_sound (registry : Registry) (packets : list Downstream.Packet) :
  ∀ st, sound st → sound (after registry packets st).
Proof.
  induction packets as [|packet packets IH]; intros st Hs; [done|].
  cbn. apply IH.
  destruct (downstream_on_sound registry packet st Hs) as (st' & -> & Hs'). done.
Qed.

Lemma reachable_sound (registry : Registry) (packets : list Downstream.Packet) :
  sound (after registry packets initial).
Proof. apply after_sound, sound_initial. Qed.

(** *** The reachable states *)

(** X11: after any stream of packets from the empty table, the entity
    tracked under an id has that id and is valid. *)
Theorem reachable_tracked_entity (registry : Registry) (packets : list Downstream.Packet)
    (id : Z) (e : Entity) :
  getEntityById (after registry packets initial) id = Some e →
  Entity.id e = id ∧ Entity.isValid e = true.
Proof.
  destruct (reachable_sound registry packets) as (Hwf & Hvalid & _).
  unfold getEntityById. intros He.
  destruct (entities (after registry packets initial) !! id) as [entity|] eqn:Hent; [|done].
  cbn in He. split; [|by eauto].
  destruct (Hwf _ _ Hent) as (e0 & He0 & Hid). congruence.
Qed.

(** X12: after any stream of packets from the empty table, every tracked
    entity has its yaw in [[0, 2 PI)] and its pitch in [[- PI, PI)]. *)
Theorem reachable_orientation_canonical (registry : Registry)
    (packets : list Downstream.Packet) (id : Z) (e : Entity) :
  getEntityById (after registry packets initial) id = Some e →
  (0 <= Entity.yaw e < 2 * Rtrigo1.PI)%R
  ∧ (- Rtrigo1.PI <= Entity.pitch e < Rtrigo1.PI)%R.
Proof.
  destruct (reachable_sound registry packets) as (_ & _ & Hnorm).
  unfold getEntityById. intros He.
  destruct (entities (after registry packets initial) !! id) as [entity|] eqn:Hent; [|done].
  cbn in He. exact (Hnorm _ _ He).
Qed.

(** X13: after any stream of packets from the empty table, two ids never
    share an entity object, and every tracked id has an object. *)
Theorem reachable_table_injective (registry : Registry) (packets : list Downstream.Packet)
    (id1 id2 : Z) (entity : ref) :
  entities (after registry packets initial) !! id1 = Some entity →
  entities (after registry packets initial) !! id2 = Some entity →
  id1 = id2 ∧ is_Some (getEntityById (after registry packets initial) id1).
Proof.
  destruct (reachable_sound registry packets) as (Hwf & _). intros H1 H2.
  destruct (Hwf _ _ H1) as (e1 & He1 & Hid1). destruct (Hwf _ _ H2) as (e2 & He2 & Hid2).
  split; [congruence|]. unfold getEntityById. rewrite H1. cbn. by eexists.
Qed.

(** A look packet for 42 on the empty table leaves 42 tracked. *)
Lemma looked_42 :
  ∃ e, getEntityById (after fixed_point_registry [Downstream.entity_look look_42] initial) 42
       = Some e.
Proof.
  destruct (onEntityLook_run look_42 initial wf_initial)
    as (entity & st1 & e & st' & e' & _ & Hres & Hrun & Htouched & _).
  destruct (resolved_lookup _ _ _ _ _ Hres) as (Hent & _).
  exists e'. cbn. unfold on_entity_look. rewrite Hrun. cbn.
  exact (touched_getEntityById _ _ _ _ _ _ Hent Htouched).
Qed.

Lemma reachable_tracked_entity_witness :
  ∃ e, getEntityById (after fixed_point_registry [Downstream.entity_look look_42] initial) 42
       = Some e
       ∧ Entity.id e = 42%Z ∧ Entity.isValid e = true.
Proof.
  destruct looked_42 as [e He]. exists e. split; [exact He|].
  exact (reachable_tracked_entity _ _ _ _ He).
Defined.

Lemma reachable_orientation_canonical_witness :
  ∃ e, getEntityById (after fixed_point_registry [Downstream.entity_look look_42] initial) 42
       = Some e
       ∧ (0 <= Entity.yaw e < 2 * Rtrigo1.PI)%R
       ∧ (- Rtrigo1.PI <= Entity.pitch e < Rtrigo1.PI)%R.
Proof.
  destruct looked_42 as [e He]. exists e. split; [exact He|].
  exact (reachable_orientation_canonical _ _ _ _ He).
Defined.

Lemma reachable_table_injective_witness :
  ∃ entity,
    entities (after fixed_point_registry [Downstream.entity_look look_42] initial) !! 42%Z
      = Some entity
    ∧ is_Some (getEntityById
                 (after fixed_point_registry [Downstream.entity_look look_42] initial) 42).
Proof.
  destruct looked_42 as [e He]. unfold getEntityById in He.
  destruct (entities _ !! 42%Z) as [entity|] eqn:Hent; [|done].
  exists entity. split; [reflexivity|].
  exact (proj2 (reachable_table_injective _ _ 42 42 entity Hent Hent)).
Defined.

(** *** [getEntity] *)

(** X10: [getEntity] creates at most once: a second call for the same id
    returns the same reference and changes nothing; the first call leaves
    the other ids as they were, changes nothing when the id was tracked, and
    otherwise stores a fresh [Entity] at a reference that was not in use. *)
Theorem getEntity_idempotent (st st1 : State) (id : Z) (entity : ref) :
  getEntity id st = (Normal entity, st1) →
  getEntity id st1 = (Normal entity, st1)
  ∧ entities st1 !! id = Some entity
  ∧ (∀ id', id' ≠ id → entities st1 !! id' = entities st !! id')
  ∧ (is_Some (entities st !! id) → st1 = st)
  ∧ (entities st !! id = None →
       heap st !! entity = None ∧ heap st1 !! entity = Some (Entity.new id)
       ∧ ∀ other, other ≠ entity → heap st1 !! other = heap st !! other).
Proof.
  intros Hget. destruct (entities st !! id) as [r|] eqn:Hid.
  - rewrite (getEntity_tracked _ _ _ Hid) in Hget. injection Hget as <- <-.
    split; [by apply getEntity_tracked|]. by repeat split.
  - rewrite (getEntity_untracked _ _ Hid) in Hget. injection Hget as <- <-.
    assert (entities
              {| heap := <[fresh (dom (heap st)) := Entity.new id]> (heap st);
                 entities := <[id := fresh (dom (heap st))]> (entities st);
                 emitted := emitted st |} !! id = Some (fresh (dom (heap st)))) as Hent
      by (cbn; apply lookup_insert_eq).
    split; [by apply getEntity_tracked|]. split; [done|]. cbn.
    split; [intros id' Hne; by rewrite lookup_insert_ne|].
    split; [by intros [? [=]]|]. intros _.
    split; [apply fresh_unallocated|]. split; [apply lookup_insert_eq|].
    intros other Hne. by rewrite lookup_insert_ne.
Qed.

Lemma getEntity_idempotent_witness :
  getEntity 42 initial = (Normal 1%positive, tracking_42)
  ∧ getEntity 42 tracking_42 = (Normal 1%positive, tracking_42).
Proof.
  assert (getEntity 42 initial = (Normal 1%positive, tracking_42)) as H
    by (rewrite (getEntity_untracked initial 42 eq_refl); reflexivity).
  split; [exact H|]. exact (proj1 (getEntity_idempotent _ _ _ _ H)).
Defined.

(** *** Objects persist *)

Lemma heap_persists_trans (st1 st2 st3 : State) :
  heap_persists st1 st2 → heap_persists st2 st3 → heap_persists st1 st3.
Proof.
  intros H12 H23 r e He. destruct (H12 r e He) as (e2 & He2 & Hid2 & Hv2).
  destruct (H23 r e2 He2) as (e3 & He3 & Hid3 & Hv3).
  exists e3. split; [done|]. split; [congruence|auto].
Qed.

Lemma touched_persists (st st1 st' : State) (id : Z) (entity : ref) (ev : Event)
    (e e' : Entity) :
  resolved st id entity st1 e → touched entity ev e' st1 st' →
  Entity.id e' = Entity.id e → Entity.isValid e' = Entity.isValid e →
  heap_persists st st'.
Proof.
  intros Hres (_ & Hothers & He' & _) Hid Hv r e0 He0.
  destruct (resolved_lookup _ _ _ _ _ Hres) as (_ & Hheap & _ & _).
  assert (heap st1 !! r = Some e0) as He1
    by (by rewrite (resolved_heap _ _ _ _ _ r Hres) by (by eexists)).
  destruct (decide (r = entity)) as [->|Hne].
  - exists e'. split; [done|]. split; congruence.
  - exists e0. rewrite Hothers by done. by repeat split.
Qed.

Lemma destroy_loop_persists (packet : DownstreamEntityDestroyPacketData) (ids : list Z) :
  ∀ st, wf st →
  ∃ st', for_of ids (destroy_iteration packet) st = (Normal (), st') ∧ heap_persists st st'.
Proof.
  induction ids as [|id ids IH]; intros st Hwf.
  - exists st. split; [done|]. intros r e He. exists e. by repeat split.
  - destruct (destroy_iteration_run packet id st Hwf) as (entity & st1 & e & _ & Hres & Hrun).
    destruct (destroy_iteration_keeps packet id st _ Hwf Hrun) as (Hwf2 & _).
    destruct (IH _ Hwf2) as (st' & Hrun' & Hp').
    exists st'. split; [cbn; by rewrite (bind_normal _ _ _ _ _ Hrun)|].
    refine (heap_persists_trans _ _ _ _ Hp'). intros r e0 He0. cbn.
    assert (heap st1 !! r = Some e0) as He1
      by (by rewrite (resolved_heap _ _ _ _ _ r Hres) by (by eexists)).
    destruct (decide (entity = r)) as [->|Hne].
    + rewrite lookup_alter_eq, He1. eexists. split; [done|]. by split.
    + rewrite lookup_alter_ne, He1 by done. eexists. split; [done|]. by split.
Qed.

Lemma downstream_on_persists (registry : Registry) (packet : Downstream.Packet) (st : State) :
  wf st →
  ∃ st', downstream_on registry packet st = (Normal (), st') ∧ wf st' ∧ heap_persists st st'.
Proof.
  intros Hwf.
  assert (∀ data, ∃ st', onRelativeEntityMovement registry data st = (Normal (), st')
                         ∧ wf st' ∧ heap_persists st st') as Hmove.
  { intros data.
    destruct (onRelativeEntityMovement_run registry data st Hwf)
      as (entity & st1 & e & st' & e' & _ & Hres & Hrun & Htouched & _ & _ & _ &
          (Hid & _ & Hv) & _).
    destruct (onRelativeEntityMovement_ok registry data st Hwf) as (st'' & Hrun' & Hwf').
    exists st'. rewrite Hrun in Hrun'. injection Hrun' as <-.
    split; [done|]. split; [done|]. exact (touched_persists _ _ _ _ _ _ _ _ Hres Htouched Hid Hv). }
  assert (∀ data st0, wf st0 → ∃ st', onEntityLook data st0 = (Normal (), st')
                         ∧ wf st' ∧ heap_persists st0 st') as Hlook.
  { intros data st0 Hwf0.
    destruct (onEntityLook_run data st0 Hwf0)
      as (entity & st1 & e & st' & e' & _ & Hres & Hrun & Htouched & _ & _ & _ & _ &
          (Hid & _ & Hv) & _).
    destruct (onEntityLook_ok data st0 Hwf0) as (st'' & Hrun' & Hwf').
    exists st'. rewrite Hrun in Hrun'. injection Hrun' as <-.
    split; [done|]. split; [done|]. exact (touched_persists _ _ _ _ _ _ _ _ Hres Htouched Hid Hv). }
  destruct packet as [data|data|data|data|data|data|data]; cbn.
  - destruct (on_spawn_entity_run registry data st Hwf)
      as (entity & st1 & e & st' & ec & e' & _ & Hres & Hrun & Htouched & Hc & Hp).
    destruct (on_spawn_entity_ok registry data st Hwf) as (st'' & Hrun' & Hwf').
    exists st'. rewrite Hrun in Hrun'. injection Hrun' as <-.
    split; [done|]. split; [done|].
    destruct Hc as (_ & _ & (Hidc & _ & Hvc) & _).
    destruct Hp as (_ & _ & _ & _ & (Hidp & _ & Hvp) & _).
    apply (touched_persists _ _ _ _ _ _ _ _ Hres Htouched).
    + by rewrite Hidp, Hidc.
    + by rewrite Hvp, Hvc.
  - destruct (on_entity_velocity_run data st Hwf)
      as (entity & st1 & e & st' & e' & _ & Hres & Hrun & Htouched & _ & _ & _ &
          (Hid & _ & Hv) & _).
    destruct (on_entity_velocity_ok data st Hwf) as (st'' & Hrun' & Hwf').
    exists st'. rewrite Hrun in Hrun'. injection Hrun' as <-.
    split; [done|]. split; [done|]. exact (touched_persists _ _ _ _ _ _ _ _ Hres Htouched Hid Hv).
  - rewrite on_entity_destroy_loop.
    destruct (destroy_loop_persists data (EntityDestroy.entityIds data) st Hwf)
      as (st' & Hrun & Hp).
    destruct (destroy_loop_run data (EntityDestroy.entityIds data) st Hwf)
      as (st'' & ems & Hrun' & Hwf' & _).
    exists st'. rewrite Hrun in Hrun'. injection Hrun' as <-. done.
  - apply Hmove.
  - by apply Hlook.
  - destruct (Hmove data) as (st1 & Hrun1 & Hwf1 & Hp1).
    destruct (Hlook (move_look data) st1 Hwf1) as (st' & Hrun' & Hwf' & Hp').
    exists st'. split; [|split; [done|exact (heap_persists_trans _ _ _ Hp1 Hp')]].
    unfold on_entity_move_look. by rewrite (bind_normal _ _ _ _ _ Hrun1).
  - destruct (on_entity_teleport_run registry data st Hwf)
      as (entity & st1 & e & st' & e' & _ & Hres & Hrun & Htouched & _ & _ & _ & _ &
          (Hid & _ & Hv) & _).
    destruct (on_entity_teleport_ok registry data st Hwf) as (st'' & Hrun' & Hwf').
    exists st'. rewrite Hrun in Hrun'. injection Hrun' as <-.
    split; [done|]. split; [done|]. exact (touched_persists _ _ _ _ _ _ _ _ Hres Htouched Hid Hv).
Qed.

Lemma after_persists (registry : Registry) (packets : list Downstream.Packet) :
  ∀ st, wf st → heap_persists st (after registry packets st).
Proof.
  induction packets as [|packet packets IH]; intros st Hwf.
  - intros r e He. exists e. by repeat split.
  - cbn. destruct (downstream_on_persists registry packet st Hwf) as (st' & -> & Hwf' & Hp).
    cbn. exact (heap_persists_trans _ _ _ Hp (IH st' Hwf')).
Qed.

(** X15: no stream of packets removes an entity object, changes its id, or
    makes an invalid entity valid again. *)
Theorem objects_persist_invalid_stays (registry : Registry)
    (packets : list Downstream.Packet) (st : State) (entity : ref) (e : Entity) :
  wf st → heap st !! entity = Some e →
  ∃ e', heap (after registry packets st) !! entity = Some e'
        ∧ Entity.id e' = Entity.id e
        ∧ (Entity.isValid e = false → Entity.isValid e' = false).
Proof. intros Hwf He. exact (after_persists registry packets st Hwf entity e He). Qed.

Lemma wf_destroyed_42 : wf destroyed_42.
Proof. intros id entity. cbn. by rewrite lookup_empty. Qed.

(** The object of the destroyed entity 42 stays invalid when 42 is looked at
    and spawned again. *)
Lemma objects_persist_invalid_stays_witness :
  wf destroyed_42
  ∧ heap destroyed_42 !! 1%positive = Some (Entity.set_isValid false (Entity.new 42))
  ∧ ∃ e', heap (after fixed_point_registry
                  [Downstream.entity_look look_42; Downstream.spawn_entity spawn_42]
                  destroyed_42) !! 1%positive = Some e'
          ∧ Entity.id e' = 42%Z ∧ Entity.isValid e' = false.
Proof.
  split; [exact wf_destroyed_42|]. split; [reflexivity|].
  destruct (objects_persist_invalid_stays fixed_point_registry
              [Downstream.entity_look look_42; Downstream.spawn_entity spawn_42]
              destroyed_42 1%positive (Entity.set_isValid false (Entity.new 42))
              wf_destroyed_42 eq_refl)
    as (e' & He' & Hid & Hv).
  exists e'. split; [exact He'|]. split; [exact Hid|]. exact (Hv eq_refl).
Defined.

(** *** A destroyed id gets a new object *)

Lemma resolved_tracked_inv (st st1 : State) (id : Z) (entity r : ref) (e : Entity) :
  entities st !! id = Some r → resolved st id entity st1 e →
  entity = r ∧ st1 = st ∧ heap st !! r = Some e.
Proof. intros Hr Hres. destruct Hres as [entity e He Hh _|Hnone]; [|congruence]. by simplify_eq. Qed.

(** X16: after a tracked id is destroyed it is not tracked; the next
    reference to it creates a new, fresh entity at another reference, and the
    destroyed object stays invalid. *)
Theorem destroyed_id_gets_new_object (packet : DownstreamEntityDestroyPacketData)
    (st : State) (id : Z) (entity : ref) :
  wf st →
  EntityDestroy.entityIds packet = [id] →
  entities st !! id = Some entity →
  ∃ st' entity' st'' old,
    on_entity_destroy packet st = (Normal (), st')
    ∧ getEntityById st' id = None
    ∧ getEntity id st' = (Normal entity', st'')
    ∧ entity' ≠ entity
    ∧ getEntityById st'' id = Some (Entity.new id)
    ∧ heap st'' !! entity = Some old
    ∧ Entity.isValid old = false.
Proof.
  intros Hwf Hids Hent.
  destruct (destroy_iteration_run packet id st Hwf) as (r & st1 & e & _ & Hres & Hrun).
  destruct (resolved_tracked_inv _ _ _ _ _ _ Hent Hres) as (-> & -> & He).
  rewrite <- (destroy_single _ _ _ Hids) in Hrun.
  set (st' := {| heap := alter (Entity.set_isValid false) entity (heap st);
                 entities := delete id (entities st);
                 emitted := emitted st ++
                   [{| event := entity_destroy entity packet;
                       seen := Some (Entity.set_isValid false e);
                       table := delete id (entities st) |}] |}) in *.
  assert (heap st' !! entity = Some (Entity.set_isValid false e)) as Hold
    by (cbn; by rewrite lookup_alter_eq, He).
  assert (entities st' !! id = None) as Hgone by (cbn; apply lookup_delete_eq).
  assert (fresh (dom (heap st')) ≠ entity) as Hne.
  { intros Heq. pose proof (fresh_unallocated st') as Hfresh.
    rewrite Heq in Hfresh. congruence. }
  exists st', (fresh (dom (heap st'))). eexists. exists (Entity.set_isValid false e).
  split; [exact Hrun|].
  split; [unfold getEntityById; by rewrite Hgone|].
  split; [exact (getEntity_untracked _ _ Hgone)|].
  split; [exact Hne|].
  split; [unfold getEntityById; cbn -[st']; rewrite lookup_insert_eq; cbn -[st'];
          by rewrite lookup_insert_eq|].
  split; [|done]. cbn -[st']. by rewrite lookup_insert_ne.
Qed.

(** Destroying the tracked entity 42 and referring to 42 again. *)
Lemma destroyed_id_gets_new_object_witness :
  wf tracking_42
  ∧ EntityDestroy.entityIds {| EntityDestroy.entityIds := [42%Z] |} = [42%Z]
  ∧ entities tracking_42 !! 42%Z = Some 1%positive
  ∧ ∃ st' entity' st'',
      on_entity_destroy {| EntityDestroy.entityIds := [42%Z] |} tracking_42 = (Normal (), st')
      ∧ getEntity 42 st' = (Normal entity', st'')
      ∧ entity' ≠ 1%positive
      ∧ getEntityById st'' 42 = Some (Entity.new 42).
Proof.
  split; [exact wf_tracking_42|]. split; [reflexivity|]. split; [reflexivity|].
  destruct (destroyed_id_gets_new_object {| EntityDestroy.entityIds := [42%Z] |}
              tracking_42 42 1%positive wf_tracking_42 eq_refl eq_refl)
    as (st' & entity' & st'' & old & Hrun & _ & Hget & Hne & Hnew & _).
  by exists st', entity', st''.
Defined.

(** *** What each handler changes, and what it announces *)

Lemma touched_announced (st st1 st' : State) (id : Z) (entity : ref) (ev : Event)
    (e e' : Entity) :
  resolved st id entity st1 e → touched entity ev e' st1 st' →
  getEntityById st' id = Some e'
  ∧ emitted st' = emitted st ++ [{| event := ev; seen := Some e'; table := entities st' |}].
Proof.
  intros Hres Htouched.
  destruct (resolved_lookup _ _ _ _ _ Hres) as (Hent & _ & _ & Hem).
  split; [exact (touched_getEntityById _ _ _ _ _ _ Hent Htouched)|].
  destruct Htouched as (Hents & _ & _ & Hemitted). by rewrite Hemitted, Hem, Hents.
Qed.

(** X17: a velocity packet sets the velocity to [decodeNotchianVelocityByte]
    of each of the three raw values, leaves position, orientation, identity
    and classification as they were, and emits one [entity.velocity] that
    shows the entity with the new velocity. *)
Theorem entity_velocity_sets_velocity (packet : DownstreamEntityVelocityPacketData)
    (st : State) :
  wf st →
  ∃ entity st1 e st' e',
    getEntity (EntityVelocity.entityId packet) st = (Normal entity, st1)
    ∧ heap st1 !! entity = Some e
    ∧ on_entity_velocity packet st = (Normal (), st')
    ∧ getEntityById st' (EntityVelocity.entityId packet) = Some e'
    ∧ Entity.velocity e' =
        Vec3.Build (decodeNotchianVelocityByte (EntityVelocity.velocityX packet))
                   (decodeNotchianVelocityByte (EntityVelocity.velocityY packet))
                   (decodeNotchianVelocityByte (EntityVelocity.velocityZ packet))
    ∧ Entity.position e' = Entity.position e
    ∧ same_orientation e e'
    ∧ same_identity e e'
    ∧ same_classification e e'
    ∧ emitted st' =
        emitted st ++
        [{| event := entity_velocity entity packet; seen := Some e';
            table := entities st' |}].
Proof.
  intros Hwf.
  destruct (on_entity_velocity_run packet st Hwf)
    as (entity & st1 & e & st' & e' & Hget & Hres & Hrun & Htouched & Hvel & Hpos & Hor &
        Hident & Hclass).
  destruct (resolved_lookup _ _ _ _ _ Hres) as (_ & Hheap & _ & _).
  destruct (touched_announced _ _ _ _ _ _ _ _ Hres Htouched) as (He' & Hem).
  exists entity, st1, e, st', e'. repeat (split; [done|]). done.
Qed.

Lemma entity_velocity_sets_velocity_witness :
  wf tracking_42
  ∧ ∃ st' e',
      on_entity_velocity
        {| EntityVelocity.entityId := 42; EntityVelocity.velocityX := 8000;
           EntityVelocity.velocityY := 0; EntityVelocity.velocityZ := -8000 |}
        tracking_42 = (Normal (), st')
      ∧ getEntityById st' 42 = Some e'
      ∧ Entity.velocity e' = Vec3.Build 1 0 (-1)
      ∧ Entity.position e' = Vec3.Build 0 0 0.
Proof.
  split; [exact wf_tracking_42|].
  destruct (entity_velocity_sets_velocity
              {| EntityVelocity.entityId := 42; EntityVelocity.velocityX := 8000;
                 EntityVelocity.velocityY := 0; EntityVelocity.velocityZ := -8000 |}
              tracking_42 wf_tracking_42)
    as (entity & st1 & e & st' & e' & Hget & He & Hrun & He' & Hvel & Hpos & _).
  exists st', e'. split; [exact Hrun|]. split; [exact He'|].
  change (getEntity 42 tracking_42 = (Normal entity, st1)) in Hget.
  rewrite (getEntity_tracked tracking_42 42 1%positive eq_refl) in Hget.
  injection Hget as <- <-. cbn in He. rewrite lookup_singleton_eq in He. injection He as <-.
  split; [|by rewrite Hpos].
  rewrite Hvel. cbn. unfold decodeNotchianVelocityByte, NOTCH_BYTE_VELOCITY_TO_BPS.
  f_equal; lra.
Defined.

(** X18: a teleport sets yaw and pitch to the decoded angle bytes whatever
    the features are, leaves velocity, identity and classification as they
    were, and emits one [entity.teleport] that shows the entity after the
    change. *)
Theorem entity_teleport_orientation (registry : Registry)
    (packet : DownstreamEntityTeleportPacketData) (st : State) :
  wf st →
  ∃ entity st1 e st' e',
    getEntity (EntityTeleport.entityId packet) st = (Normal entity, st1)
    ∧ heap st1 !! entity = Some e
    ∧ on_entity_teleport registry packet st = (Normal (), st')
    ∧ getEntityById st' (EntityTeleport.entityId packet) = Some e'
    ∧ Entity.yaw e' = decodeNotchianYawByte (EntityTeleport.yaw packet)
    ∧ Entity.pitch e' = decodeNotchianPitchByte (EntityTeleport.pitch packet)
    ∧ Entity.velocity e' = Entity.velocity e
    ∧ same_identity e e'
    ∧ same_classification e e'
    ∧ emitted st' =
        emitted st ++
        [{| event := entity_teleport entity packet; seen := Some e';
            table := entities st' |}].
Proof.
  intros Hwf.
  destruct (on_entity_teleport_run registry packet st Hwf)
    as (entity & st1 & e & st' & e' & Hget & Hres & Hrun & Htouched & _ & Hyaw & Hpitch &
        Hvel & Hident & Hclass).
  destruct (resolved_lookup _ _ _ _ _ Hres) as (_ & Hheap & _ & _).
  destruct (touched_announced _ _ _ _ _ _ _ _ Hres Htouched) as (He' & Hem).
  by exists entity, st1, e, st', e'.
Qed.

Lemma entity_teleport_orientation_witness :
  wf initial
  ∧ ∃ st' e',
      on_entity_teleport fixed_point_registry teleport_42 initial = (Normal (), st')
      ∧ getEntityById st' 42 = Some e'
      ∧ Entity.yaw e' = decodeNotchianYawByte 64
      ∧ Entity.velocity e' = Vec3.Build 0 0 0
      ∧ length (emitted st') = 1%nat.
Proof.
  split; [exact wf_initial|].
  destruct (entity_teleport_orientation fixed_point_registry teleport_42 initial wf_initial)
    as (entity & st1 & e & st' & e' & Hget & He & Hrun & He' & Hyaw & _ & Hvel & _ & _ & Hem).
  exists st', e'. split; [exact Hrun|]. split; [exact He'|]. split; [exact Hyaw|].
  change (getEntity 42 initial = (Normal entity, st1)) in Hget.
  rewrite (getEntity_untracked initial 42 eq_refl) in Hget.
  injection Hget as <- <-. cbn in He. rewrite lookup_insert_eq in He. injection He as <-.
  split; [by rewrite Hvel|]. by rewrite Hem.
Defined.

(** X19: a spawn sets yaw and pitch to the decoded angle bytes and the
    velocity to [decodeNotchianVelocityByte] of each of the three raw values,
    keeps the id and the validity of the entity, and emits one
    [entity.spawn] after all the fields are set. *)
Theorem spawn_entity_pose (registry : Registry) (packet : DownstreamSpawnEntityPacketData)
    (st : State) :
  wf st →
  ∃ entity st1 e st' e',
    getEntity (SpawnEntity.entityId packet) st = (Normal entity, st1)
    ∧ heap st1 !! entity = Some e
    ∧ on_spawn_entity registry packet st = (Normal (), st')
    ∧ getEntityById st' (SpawnEntity.entityId packet) = Some e'
    ∧ Entity.yaw e' = decodeNotchianYawByte (SpawnEntity.yaw packet)
    ∧ Entity.pitch e' = decodeNotchianPitchByte (SpawnEntity.pitch packet)
    ∧ Entity.velocity e' =
        Vec3.Build (decodeNotchianVelocityByte (SpawnEntity.velocityX packet))
                   (decodeNotchianVelocityByte (SpawnEntity.velocityY packet))
                   (decodeNotchianVelocityByte (SpawnEntity.velocityZ packet))
    ∧ Entity.id e' = Entity.id e
    ∧ Entity.isValid e' = Entity.isValid e
    ∧ emitted st' =
        emitted st ++
        [{| event := entity_spawn entity packet; seen := Some e';
            table := entities st' |}].
Proof.
  intros Hwf.
  destruct (on_spawn_entity_run registry packet st Hwf)
    as (entity & st1 & e & st' & ec & e' & Hget & Hres & Hrun & Htouched & Hc & Hp).
  destruct (resolved_lookup _ _ _ _ _ Hres) as (_ & Hheap & _ & _).
  destruct (touched_announced _ _ _ _ _ _ _ _ Hres Htouched) as (He' & Hem).
  destruct Hc as (_ & _ & (Hidc & _ & Hvc) & _).
  destruct Hp as (_ & Hyaw & Hpitch & Hvel & (Hidp & _ & Hvp) & _).
  exists entity, st1, e, st', e'. repeat (split; [done|]).
  split; [by rewrite Hidp, Hidc|]. split; [by rewrite Hvp, Hvc|done].
Qed.

Lemma spawn_entity_pose_witness :
  wf initial
  ∧ ∃ st' e',
      on_spawn_entity fixed_point_registry spawn_42 initial = (Normal (), st')
      ∧ getEntityById st' 42 = Some e'
      ∧ Entity.velocity e' = Vec3.Build 0 1 0
      ∧ Entity.isValid e' = true
      ∧ length (emitted st') = 1%nat.
Proof.
  split; [exact wf_initial|].
  destruct (spawn_entity_pose fixed_point_registry spawn_42 initial wf_initial)
    as (entity & st1 & e & st' & e' & Hget & He & Hrun & He' & _ & _ & Hvel & _ & Hv & Hem).
  exists st', e'. split; [exact Hrun|]. split; [exact He'|].
  change (getEntity 42 initial = (Normal entity, st1)) in Hget.
  rewrite (getEntity_untracked initial 42 eq_refl) in Hget.
  injection Hget as <- <-. cbn in He. rewrite lookup_insert_eq in He. injection He as <-.
  split; [|split; [by rewrite Hv|by rewrite Hem]].
  rewrite Hvel. cbn. unfold decodeNotchianVelocityByte, NOTCH_BYTE_VELOCITY_TO_BPS.
  f_equal; lra.
Defined.

(** *** Handlers one after the other on the same id *)

(** The second of two handlers for the same id works on the object the first
    one left. *)
Lemma resolved_after_touched (st1 st' st2 : State) (id : Z) (entity entity2 : ref)
    (ev : Event) (e' e2 : Entity) :
  entities st1 !! id = Some entity → touched entity ev e' st1 st' →
  resolved st' id entity2 st2 e2 →
  entity2 = entity ∧ st2 = st' ∧ e2 = e'.
Proof.
  intros Hent (Hents & _ & He' & _) Hres.
  assert (entities st' !! id = Some entity) as Hent' by (by rewrite Hents).
  destruct (resolved_tracked_inv _ _ _ _ _ _ Hent' Hres) as (-> & -> & He2).
  split; [done|]. split; [done|]. congruence.
Qed.

(** X20: when an id spawned under a known type is spawned again under an
    unknown type code, the entity becomes "other"/"unknown" but keeps the
    height and width of the known type: the fallback does not reset them. *)
Theorem respawn_unknown_type_keeps_size (registry : Registry)
    (first second : DownstreamSpawnEntityPacketData) (data : Registry.EntityData)
    (st : State) :
  wf st →
  SpawnEntity.entityId second = SpawnEntity.entityId first →
  Registry.entities registry !! SpawnEntity.type first = Some data →
  Registry.entities registry !! SpawnEntity.type second = None →
  ∃ st1 st2 e,
    on_spawn_entity registry first st = (Normal (), st1)
    ∧ on_spawn_entity registry second st1 = (Normal (), st2)
    ∧ getEntityById st2 (SpawnEntity.entityId first) = Some e
    ∧ Entity.uuid e = Some (SpawnEntity.objectUUID second)
    ∧ Entity.type e = Some "other"
    ∧ Entity.name e = Some "unknown"
    ∧ Entity.entityType e = Some (SpawnEntity.type second)
    ∧ Entity.height e = Some (Registry.height data)
    ∧ Entity.width e = Some (Registry.width data).
Proof.
  intros Hwf Hsame Hknown Hunknown.
  destruct (on_spawn_entity_run registry first st Hwf)
    as (entity & sta & e0 & st1 & ec1 & e1 & _ & Hres1 & Hrun1 & Htouched1 & Hc1 & Hp1).
  destruct (resolved_lookup _ _ _ _ _ Hres1) as (Hent1 & _).
  destruct (on_spawn_entity_ok registry first st Hwf) as (st1' & Hrun1' & Hwf1).
  rewrite Hrun1 in Hrun1'. injection Hrun1' as <-.
  destruct (on_spawn_entity_run registry second st1 Hwf1)
    as (entity2 & stb & e1' & st2 & ec2 & e2 & _ & Hres2 & Hrun2 & Htouched2 & Hc2 & Hp2).
  rewrite Hsame in Hres2.
  destruct (resolved_after_touched _ _ _ _ _ _ _ _ _ Hent1 Htouched1 Hres2) as (-> & -> & ->).
  exists st1, st2, e2. split; [done|]. split; [done|].
  split; [exact (touched_getEntityById _ _ _ _ _ _
                   (proj1 (resolved_lookup _ _ _ _ _ Hres2)) Htouched2)|].
  destruct Hc1 as (_ & Hsome1 & _). destruct (Hsome1 data Hknown) as (_ & _ & _ & _ & _ & Hh1 & Hw1 & _).
  destruct Hp1 as (_ & _ & _ & _ & _ & (_ & _ & _ & _ & _ & _ & Hhp1 & Hwp1)).
  destruct Hc2 as (Hnone2 & _ & (_ & Huc2 & _) & _).
  destruct (Hnone2 Hunknown) as (Ht2 & Het2 & _ & _ & Hn2 & _ & Hh2 & Hw2).
  destruct Hp2 as (_ & _ & _ & _ & (_ & Hup2 & _) &
                   (Htp2 & Hetp2 & _ & Hnp2 & _ & _ & Hhp2 & Hwp2)).
  rewrite Hup2, Huc2, Htp2, Hetp2, Hnp2, Hhp2, Hwp2, Ht2, Het2, Hn2, Hh2, Hw2. cbn.
  by rewrite Hhp1, Hwp1, Hh1, Hw1.
Qed.

(** X21: a move+look packet emits [entity.position] and then [entity.look]
    for the same entity; the first event shows the entity moved with its old
    orientation, the second shows it with the position of the first and the
    new orientation. *)
Theorem entity_move_look_sequence (registry : Registry)
    (packet : DownstreamRelativeEntityMovePacketData) (st : State) :
  wf st →
  ∃ entity st1 e e1 st' e',
    getEntity (RelativeEntityMove.entityId packet) st = (Normal entity, st1)
    ∧ heap st1 !! entity = Some e
    ∧ on_entity_move_look registry packet st = (Normal (), st')
    ∧ getEntityById st' (RelativeEntityMove.entityId packet) = Some e'
    ∧ emitted st' =
        emitted st ++
        [{| event := entity_position entity (inl packet); seen := Some e1;
            table := entities st' |};
         {| event := entity_look entity (move_look packet); seen := Some e';
            table := entities st' |}]
    ∧ Entity.position e1 =
        (if Registry.supportFeature registry "fixedPointDelta" then
           Vec3.translate (RelativeEntityMove.dX packet / 32)
             (RelativeEntityMove.dY packet / 32)
             (RelativeEntityMove.dZ packet / 32) (Entity.position e)
         else
           Vec3.translate (RelativeEntityMove.dX packet / (128 * 32))
             (RelativeEntityMove.dY packet / (128 * 32))
             (RelativeEntityMove.dZ packet / (128 * 32)) (Entity.position e))
    ∧ same_orientation e e1
    ∧ Entity.position e' = Entity.position e1
    ∧ Entity.yaw e' = decodeNotchianYawByte (RelativeEntityMove.yaw packet)
    ∧ Entity.pitch e' = decodeNotchianPitchByte (RelativeEntityMove.pitch packet).
Proof.
  intros Hwf.
  destruct (onRelativeEntityMovement_run registry packet st Hwf)
    as (entity & st1 & e & stm & e1 & Hget & Hres & Hrun1 & Htouched1 & Hpos1 & _ & Hor1 & _).
  destruct (resolved_lookup _ _ _ _ _ Hres) as (Hent & Hheap & _ & _).
  destruct (touched_announced _ _ _ _ _ _ _ _ Hres Htouched1) as (_ & Hem1).
  destruct (onRelativeEntityMovement_ok registry packet st Hwf) as (stm' & Hrun1' & Hwfm).
  rewrite Hrun1 in Hrun1'. injection Hrun1' as <-.
  destruct (onEntityLook_run (move_look packet) stm Hwfm)
    as (entity2 & stb & e1' & st' & e' & _ & Hres2 & Hrun2 & Htouched2 & Hyaw & Hpitch &
        Hpos2 & _).
  change (EntityLook.entityId (move_look packet))
    with (RelativeEntityMove.entityId packet) in Hres2.
  destruct (resolved_after_touched _ _ _ _ _ _ _ _ _ Hent Htouched1 Hres2) as (-> & -> & ->).
  destruct (touched_announced _ _ _ _ _ _ _ _ Hres2 Htouched2) as (He' & Hem2).
  exists entity, st1, e, e1, st', e'. split; [done|]. split; [done|].
  split; [unfold on_entity_move_look; by rewrite (bind_normal _ _ _ _ _ Hrun1)|].
  split; [done|]. split; [|done].
  rewrite Hem2, Hem1, <- app_assoc. cbn.
  by rewrite (proj1 Htouched2).
Qed.

(** X22: two relative moves of the same entity amount to one move by the sum
    of the raw deltas; a move followed by the opposite move puts the entity
    back where it was. *)
Theorem relative_moves_add_up (registry : Registry)
    (first second : DownstreamRelativeEntityMovePacketData) (st : State) :
  wf st →
  RelativeEntityMove.entityId second = RelativeEntityMove.entityId first →
  ∃ entity st1 e sta stb e',
    getEntity (RelativeEntityMove.entityId first) st = (Normal entity, st1)
    ∧ heap st1 !! entity = Some e
    ∧ onRelativeEntityMovement registry first st = (Normal (), sta)
    ∧ onRelativeEntityMovement registry second sta = (Normal (), stb)
    ∧ getEntityById stb (RelativeEntityMove.entityId first) = Some e'
    ∧ Entity.position e' =
        (if Registry.supportFeature registry "fixedPointDelta" then
           Vec3.translate
             ((RelativeEntityMove.dX first + RelativeEntityMove.dX second) / 32)
             ((RelativeEntityMove.dY first + RelativeEntityMove.dY second) / 32)
             ((RelativeEntityMove.dZ first + RelativeEntityMove.dZ second) / 32)
             (Entity.position e)
         else
           Vec3.translate
             ((RelativeEntityMove.dX first + RelativeEntityMove.dX second) / (128 * 32))
             ((RelativeEntityMove.dY first + RelativeEntityMove.dY second) / (128 * 32))
             ((RelativeEntityMove.dZ first + RelativeEntityMove.dZ second) / (128 * 32))
             (Entity.position e))
    ∧ (RelativeEntityMove.dX second = (- RelativeEntityMove.dX first)%R →
       RelativeEntityMove.dY second = (- RelativeEntityMove.dY first)%R →
       RelativeEntityMove.dZ second = (- RelativeEntityMove.dZ first)%R →
       Entity.position e' = Entity.position e).
Proof.
  intros Hwf Hsame.
  destruct (onRelativeEntityMovement_run registry first st Hwf)
    as (entity & st1 & e & sta & e1 & Hget & Hres & Hrun1 & Htouched1 & Hpos1 & _).
  destruct (resolved_lookup _ _ _ _ _ Hres) as (Hent & Hheap & _ & _).
  destruct (onRelativeEntityMovement_ok registry first st Hwf) as (sta' & Hrun1' & Hwfa).
  rewrite Hrun1 in Hrun1'. injection Hrun1' as <-.
  destruct (onRelativeEntityMovement_run registry second sta Hwfa)
    as (entity2 & stc & e1' & stb & e' & _ & Hres2 & Hrun2 & Htouched2 & Hpos2 & _).
  rewrite Hsame in Hres2.
  destruct (resolved_after_touched _ _ _ _ _ _ _ _ _ Hent Htouched1 Hres2) as (-> & -> & ->).
  exists entity, st1, e, sta, stb, e'. repeat (split; [done|]).
  split; [exact (touched_getEntityById _ _ _ _ _ _
                   (proj1 (resolved_lookup _ _ _ _ _ Hres2)) Htouched2)|].
  destruct (Registry.supportFeature registry "fixedPointDelta");
    rewrite Hpos2, Hpos1; unfold Vec3.translate; cbn;
    (split; [f_equal; lra|]); intros -> -> ->;
    destruct (Entity.position e) as [x y z]; cbn; f_equal; lra.
Qed.

(** Entity 42 spawned as a pig, then again under the unknown type code 999:
    it is "other"/"unknown" and still has the size of a pig. *)
Lemma respawn_unknown_type_keeps_size_witness :
  wf initial
  ∧ SpawnEntity.entityId spawn_42 = SpawnEntity.entityId spawn_pig_42
  ∧ Registry.entities pig_registry !! SpawnEntity.type spawn_pig_42 = Some pig
  ∧ Registry.entities pig_registry !! SpawnEntity.type spawn_42 = None
  ∧ ∃ st1 st2 e,
      on_spawn_entity pig_registry spawn_pig_42 initial = (Normal (), st1)
      ∧ on_spawn_entity pig_registry spawn_42 st1 = (Normal (), st2)
      ∧ getEntityById st2 42 = Some e
      ∧ Entity.type e = Some "other"
      ∧ Entity.height e = Some 0.9%R.
Proof.
  split; [exact wf_initial|]. split; [reflexivity|]. split; [reflexivity|].
  split; [reflexivity|].
  destruct (respawn_unknown_type_keeps_size pig_registry spawn_pig_42 spawn_42 pig initial
              wf_initial eq_refl eq_refl eq_refl)
    as (st1 & st2 & e & Hrun1 & Hrun2 & He & _ & Ht & _ & _ & Hh & _).
  exists st1, st2, e. split; [exact Hrun1|]. split; [exact Hrun2|].
  split; [exact He|]. split; [exact Ht|exact Hh].
Defined.

Lemma entity_move_look_sequence_witness :
  wf initial
  ∧ ∃ st' e' em1 em2,
      on_entity_move_look fixed_point_registry move_42 initial = (Normal (), st')
      ∧ getEntityById st' 42 = Some e'
      ∧ emitted st' = [em1; em2]
      ∧ event_entity (event em1) = event_entity (event em2)
      ∧ Entity.position e' = Vec3.Build 10 0 (-10).
Proof.
  split; [exact wf_initial|].
  destruct (entity_move_look_sequence fixed_point_registry move_42 initial wf_initial)
    as (entity & st1 & e & e1 & st' & e' & Hget & He & Hrun & He' & Hem & Hpos1 & _ & Hpos & _).
  exists st', e'. eexists _, _. split; [exact Hrun|]. split; [exact He'|].
  split; [exact Hem|]. split; [reflexivity|].
  change (getEntity 42 initial = (Normal entity, st1)) in Hget.
  rewrite (getEntity_untracked initial 42 eq_refl) in Hget.
  injection Hget as <- <-. cbn in He. rewrite lookup_insert_eq in He. injection He as <-.
  rewrite Hpos, Hpos1. unfold Vec3.translate. cbn. f_equal; lra.
Defined.

(** Moving entity 42 by (320, 0, -320) and back by (-320, 0, 320). *)
Lemma relative_moves_add_up_witness :
  wf tracking_42
  ∧ RelativeEntityMove.entityId move_back_42 = RelativeEntityMove.entityId move_42
  ∧ ∃ sta stb e',
      onRelativeEntityMovement pig_registry move_42 tracking_42 = (Normal (), sta)
      ∧ onRelativeEntityMovement pig_registry move_back_42 sta = (Normal (), stb)
      ∧ getEntityById stb 42 = Some e'
      ∧ Entity.position e' = Vec3.Build 0 0 0.
Proof.
  split; [exact wf_tracking_42|]. split; [reflexivity|].
  destruct (relative_moves_add_up pig_registry move_42 move_back_42 tracking_42
              wf_tracking_42 eq_refl)
    as (entity & st1 & e & sta & stb & e' & Hget & He & Hrun1 & Hrun2 & He' & _ & Hback).
  exists sta, stb, e'. split; [exact Hrun1|]. split; [exact Hrun2|]. split; [exact He'|].
  change (getEntity 42 tracking_42 = (Normal entity, st1)) in Hget.
  rewrite (getEntity_tracked tracking_42 42 1%positive eq_refl) in Hget.
  injection Hget as <- <-. cbn in He. rewrite lookup_singleton_eq in He. injection He as <-.
  rewrite Hback; [reflexivity|cbn; lra..].
Defined.

(** *** Entities a packet does not name *)

Lemma kept_trans (id' : Z) (st1 st2 st3 : State) :
  kept id' st1 st2 → kept id' st2 st3 → kept id' st1 st3.
Proof. intros [E1 G1] [E2 G2]. split; congruence. Qed.

(** Changing the object of [id] keeps the entity of another id. *)
Lemma other_object_kept (st st1 : State) (id id' : Z) (entity : ref) (e : Entity)
    (h : gmap ref Entity) :
  wf st → resolved st id entity st1 e → id' ≠ id →
  (∀ other, other ≠ entity → h !! other = heap st1 !! other) →
  (entities st !! id' ≫= λ r, h !! r) = getEntityById st id'.
Proof.
  intros Hwf Hres Hne Hh. unfold getEntityById.
  destruct (entities st !! id') as [r|] eqn:Hr; [cbn|done].
  destruct (Hwf _ _ Hr) as (e0 & He0 & Hid0).
  destruct (resolved_lookup _ _ _ _ _ Hres) as (_ & Hheap & Hid & _).
  assert (heap st1 !! r = Some e0) as He1
    by (by rewrite (resolved_heap _ _ _ _ _ r Hres) by (by eexists)).
  rewrite Hh, He1; [done|]. intros ->. congruence.
Qed.

Lemma touched_kept (st st1 st' : State) (id id' : Z) (entity : ref) (ev : Event)
    (e e' : Entity) :
  wf st → resolved st id entity st1 e → touched entity ev e' st1 st' → id' ≠ id →
  kept id' st st'.
Proof.
  intros Hwf Hres (Hents & Hothers & _) Hne.
  assert (entities st' !! id' = entities st !! id') as Hsame
    by (by rewrite Hents, (resolved_entities _ _ _ _ _ id' Hres)).
  split; [done|]. unfold getEntityById at 1. rewrite Hsame.
  exact (other_object_kept _ _ _ _ _ _ _ Hwf Hres Hne Hothers).
Qed.

Lemma destroy_loop_kept (packet : DownstreamEntityDestroyPacketData) (id' : Z)
    (ids : list Z) :
  id' ∉ ids → ∀ st, wf st →
  ∃ st', for_of ids (destroy_iteration packet) st = (Normal (), st') ∧ kept id' st st'.
Proof.
  induction ids as [|id ids IH]; intros Hnin st Hwf; [by exists st|].
  apply not_elem_of_cons in Hnin as [Hne Hnin].
  destruct (destroy_iteration_run packet id st Hwf) as (entity & st1 & e & _ & Hres & Hrun).
  destruct (destroy_iteration_keeps packet id st _ Hwf Hrun) as (Hwf2 & _).
  destruct (IH Hnin _ Hwf2) as (st' & Hrun' & Hkept').
  exists st'. split; [cbn; by rewrite (bind_normal _ _ _ _ _ Hrun)|].
  refine (kept_trans _ _ _ _ _ Hkept'). split; cbn.
  - by rewrite lookup_delete_ne.
  - unfold getEntityById at 1. cbn. rewrite lookup_delete_ne by done.
    apply (other_object_kept _ _ _ _ _ _ _ Hwf Hres Hne).
    intros other Hother. by rewrite lookup_alter_ne.
Qed.

(** X23: a packet leaves every id it does not name as it was: tracked or not
    as before, and with the same fields. *)
Theorem other_entities_untouched (registry : Registry) (packet : Downstream.Packet)
    (st : State) (id' : Z) :
  wf st → id' ∉ packet_ids packet →
  ∃ st',
    downstream_on registry packet st = (Normal (), st')
    ∧ entities st' !! id' = entities st !! id'
    ∧ getEntityById st' id' = getEntityById st id'.
Proof.
  intros Hwf Hnin.
  assert (∀ data, id' ≠ RelativeEntityMove.entityId data →
            ∃ st', onRelativeEntityMovement registry data st = (Normal (), st')
                   ∧ wf st' ∧ kept id' st st') as Hmove.
  { intros data Hne.
    destruct (onRelativeEntityMovement_run registry data st Hwf)
      as (entity & st1 & e & st' & e' & _ & Hres & Hrun & Htouched & _).
    destruct (onRelativeEntityMovement_ok registry data st Hwf) as (st'' & Hrun' & Hwf').
    exists st'. rewrite Hrun in Hrun'. injection Hrun' as <-.
    split; [done|]. split; [done|]. exact (touched_kept _ _ _ _ _ _ _ _ _ Hwf Hres Htouched Hne). }
  assert (∀ data st0, wf st0 → id' ≠ EntityLook.entityId data →
            ∃ st', onEntityLook data st0 = (Normal (), st') ∧ kept id' st0 st') as Hlook.
  { intros data st0 Hwf0 Hne.
    destruct (onEntityLook_run data st0 Hwf0)
      as (entity & st1 & e & st' & e' & _ & Hres & Hrun & Htouched & _).
    exists st'. split; [done|]. exact (touched_kept _ _ _ _ _ _ _ _ _ Hwf0 Hres Htouched Hne). }
  destruct packet as [data|data|data|data|data|data|data]; cbn in *;
    try (apply not_elem_of_cons in Hnin as [Hne _]).
  - destruct (on_spawn_entity_run registry data st Hwf)
      as (entity & st1 & e & st' & ec & e' & _ & Hres & Hrun & Htouched & _).
    exists st'. split; [done|]. exact (touched_kept _ _ _ _ _ _ _ _ _ Hwf Hres Htouched Hne).
  - destruct (on_entity_velocity_run data st Hwf)
      as (entity & st1 & e & st' & e' & _ & Hres & Hrun & Htouched & _).
    exists st'. split; [done|]. exact (touched_kept _ _ _ _ _ _ _ _ _ Hwf Hres Htouched Hne).
  - rewrite on_entity_destroy_loop. by apply destroy_loop_kept.
  - destruct (Hmove data Hne) as (st' & Hrun & _ & Hkept). by exists st'.
  - by apply Hlook.
  - destruct (Hmove data Hne) as (st1 & Hrun1 & Hwf1 & Hkept1).
    destruct (Hlook (move_look data) st1 Hwf1 Hne) as (st' & Hrun' & Hkept').
    exists st'. split; [|exact (kept_trans _ _ _ _ Hkept1 Hkept')].
    unfold on_entity_move_look. by rewrite (bind_normal _ _ _ _ _ Hrun1).
  - destruct (on_entity_teleport_run registry data st Hwf)
      as (entity & st1 & e & st' & e' & _ & Hres & Hrun & Htouched & _).
    exists st'. split; [done|]. exact (touched_kept _ _ _ _ _ _ _ _ _ Hwf Hres Htouched Hne).
Qed.

(** Entity 42 is as it was after a batch that destroys 7 only. *)
Lemma other_entities_untouched_witness :
  wf tracking_42
  ∧ (42%Z ∉ packet_ids (Downstream.entity_destroy destroy_7))
  ∧ ∃ st',
      downstream_on pig_registry (Downstream.entity_destroy destroy_7) tracking_42
        = (Normal (), st')
      ∧ getEntityById st' 42 = Some (Entity.new 42).
Proof.
  assert (42%Z ∉ packet_ids (Downstream.entity_destroy destroy_7)) as Hnin.
  { cbn. intros [Heq|Hin]%elem_of_cons; [discriminate|]. by apply elem_of_nil in Hin. }
  split; [exact wf_tracking_42|]. split; [exact Hnin|].
  destruct (other_entities_untouched pig_registry (Downstream.entity_destroy destroy_7)
              tracking_42 42 wf_tracking_42 Hnin) as (st' & Hrun & _ & Hkept).
  exists st'. split; [exact Hrun|]. rewrite Hkept. reflexivity.
Defined.

(** *** The events of a packet *)

Lemma destroyed_names (packet : DownstreamEntityDestroyPacketData) (st' : State)
    (ids : list Z) (ems : list Emission) :
  Forall2 (destroyed packet st') ids ems →
  (λ em, event_name (event em)) <$> ems = replicate (length ids) entity_destroy_name.
Proof.
  induction 1 as [|id em ids ems (entity & e & Hev & _) _ IH]; [done|].
  cbn. by rewrite Hev, IH.
Qed.

(** X24: the events of a packet, in order: one [entity.spawn],
    [entity.velocity], [entity.position], [entity.look] or [entity.teleport]
    for the packet of that kind, [entity.position] then [entity.look] for a
    move+look, and one [entity.destroy] per listed id for a destroy; a
    teleport never emits [entity.position]. *)
Theorem packet_event_names (registry : Registry) (packet : Downstream.Packet) (st : State) :
  wf st →
  ∃ st' ems,
    downstream_on registry packet st = (Normal (), st')
    ∧ emitted st' = emitted st ++ ems
    ∧ (λ em, event_name (event em)) <$> ems = packet_events packet.
Proof.
  intros Hwf.
  assert (∀ data st0, wf st0 →
            ∃ st' em, onRelativeEntityMovement registry data st0 = (Normal (), st')
                   ∧ wf st' ∧ emitted st' = emitted st0 ++ [em]
                   ∧ event_name (event em) = entity_position_name) as Hmove.
  { intros data st0 Hwf0.
    destruct (onRelativeEntityMovement_run registry data st0 Hwf0)
      as (entity & st1 & e & st' & e' & _ & Hres & Hrun & Htouched & _).
    destruct (onRelativeEntityMovement_ok registry data st0 Hwf0) as (st'' & Hrun' & Hwf').
    rewrite Hrun in Hrun'. injection Hrun' as <-.
    destruct (touched_announced _ _ _ _ _ _ _ _ Hres Htouched) as (_ & Hem).
    by eexists st', _. }
  assert (∀ data st0, wf st0 →
            ∃ st' em, onEntityLook data st0 = (Normal (), st')
                   ∧ emitted st' = emitted st0 ++ [em]
                   ∧ event_name (event em) = entity_look_name) as Hlook.
  { intros data st0 Hwf0.
    destruct (onEntityLook_run data st0 Hwf0)
      as (entity & st1 & e & st' & e' & _ & Hres & Hrun & Htouched & _).
    destruct (touched_announced _ _ _ _ _ _ _ _ Hres Htouched) as (_ & Hem).
    by eexists st', _. }
  destruct packet as [data|data|data|data|data|data|data]; cbn.
  - destruct (on_spawn_entity_run registry data st Hwf)
      as (entity & st1 & e & st' & ec & e' & _ & Hres & Hrun & Htouched & _).
    destruct (touched_announced _ _ _ _ _ _ _ _ Hres Htouched) as (_ & Hem).
    by eexists st', [_].
  - destruct (on_entity_velocity_run data st Hwf)
      as (entity & st1 & e & st' & e' & _ & Hres & Hrun & Htouched & _).
    destruct (touched_announced _ _ _ _ _ _ _ _ Hres Htouched) as (_ & Hem).
    by eexists st', [_].
  - rewrite on_entity_destroy_loop.
    destruct (destroy_loop_run data (EntityDestroy.entityIds data) st Hwf)
      as (st' & ems & Hrun & _ & Hems & Hall & _).
    exists st', ems. split; [done|]. split; [done|]. exact (destroyed_names _ _ _ _ Hall).
  - destruct (Hmove data st Hwf) as (st' & em & Hrun & _ & Hem & Hname).
    exists st', [em]. cbn. by rewrite Hname.
  - destruct (Hlook data st Hwf) as (st' & em & Hrun & Hem & Hname).
    exists st', [em]. cbn. by rewrite Hname.
  - destruct (Hmove data st Hwf) as (st1 & em1 & Hrun1 & Hwf1 & Hem1 & Hname1).
    destruct (Hlook (move_look data) st1 Hwf1) as (st' & em2 & Hrun2 & Hem2 & Hname2).
    exists st', [em1; em2]. split.
    { unfold on_entity_move_look. by rewrite (bind_normal _ _ _ _ _ Hrun1). }
    split; [by rewrite Hem2, Hem1, <- app_assoc|]. cbn. by rewrite Hname1, Hname2.
  - destruct (on_entity_teleport_run registry data st Hwf)
      as (entity & st1 & e & st' & e' & _ & Hres & Hrun & Htouched & _).
    destruct (touched_announced _ _ _ _ _ _ _ _ Hres Htouched) as (_ & Hem).
    by eexists st', [_].
Qed.

Lemma packet_event_names_witness :
  wf tracking_42
  ∧ ∃ st' ems,
      downstream_on fixed_point_registry (Downstream.entity_move_look move_42) tracking_42
        = (Normal (), st')
      ∧ emitted st' = ems
      ∧ (λ em, event_name (event em)) <$> ems = [entity_position_name; entity_look_name].
Proof.
  split; [exact wf_tracking_42|].
  destruct (packet_event_names fixed_point_registry (Downstream.entity_move_look move_42)
              tracking_42 wf_tracking_42) as (st' & ems & Hrun & Hem & Hnames).
  exists st', ems. split; [exact Hrun|]. split; [exact Hem|exact Hnames].
Defined.

(** *** A batch that lists an id twice *)

(** X25: a destroy batch that lists a tracked id twice emits two events:
    the first carries the tracked object, the second a fresh object created
    for the occasion, already invalid; the id is untracked at both. *)
Theorem destroy_listed_twice (packet : DownstreamEntityDestroyPacketData) (st : State)
    (id : Z) (entity : ref) :
  wf st →
  EntityDestroy.entityIds packet = [id; id] →
  entities st !! id = Some entity →
  ∃ st' e,
    on_entity_destroy packet st = (Normal (), st')
    ∧ heap st !! entity = Some e
    ∧ emitted st' =
        emitted st ++
        [{| event := entity_destroy entity packet;
            seen := Some (Entity.set_isValid false e);
            table := delete id (entities st) |};
         {| event := entity_destroy (fresh (dom (heap st))) packet;
            seen := Some (Entity.set_isValid false (Entity.new id));
            table := delete id (entities st) |}]
    ∧ fresh (dom (heap st)) ≠ entity
    ∧ entities st' = delete id (entities st).
Proof.
  intros Hwf Hids Hent.
  destruct (destroy_iteration_run packet id st Hwf) as (r & st1 & e & _ & Hres & Hrun).
  destruct (resolved_tracked_inv _ _ _ _ _ _ Hent Hres) as (-> & -> & He).
  set (sta := {| heap := alter (Entity.set_isValid false) entity (heap st);
                 entities := delete id (entities st);
                 emitted := emitted st ++
                   [{| event := entity_destroy entity packet;
                       seen := Some (Entity.set_isValid false e);
                       table := delete id (entities st) |}] |}) in *.
  assert (entities sta !! id = None) as Hgone by (cbn; apply lookup_delete_eq).
  pose proof (destroy_untracked_run packet sta id Hgone) as Hrun2.
  assert (fresh (dom (heap sta)) = fresh (dom (heap st))) as Hfresh
    by (cbn; by rewrite dom_alter_L).
  eexists _, e. split.
  { rewrite on_entity_destroy_loop, Hids. cbn.
    rewrite (bind_normal _ _ _ _ _ Hrun).
    unfold mbind, M_bind. rewrite Hrun2. reflexivity. }
  split; [done|]. cbn -[sta]. rewrite Hfresh. split.
  { unfold sta. cbn. by rewrite <- app_assoc. }
  split; [|done]. intros Heq. pose proof (fresh_unallocated st) as Hf.
  rewrite Heq in Hf. congruence.
Qed.

Lemma destroy_listed_twice_witness :
  wf tracking_42
  ∧ EntityDestroy.entityIds {| EntityDestroy.entityIds := [42%Z; 42%Z] |} = [42%Z; 42%Z]
  ∧ entities tracking_42 !! 42%Z = Some 1%positive
  ∧ ∃ st' em1 em2,
      on_entity_destroy {| EntityDestroy.entityIds := [42%Z; 42%Z] |} tracking_42
        = (Normal (), st')
      ∧ emitted st' = [em1; em2]
      ∧ event_entity (event em1) = 1%positive
      ∧ event_entity (event em2) ≠ 1%positive.
Proof.
  split; [exact wf_tracking_42|]. split; [reflexivity|]. split; [reflexivity|].
  destruct (destroy_listed_twice {| EntityDestroy.entityIds := [42%Z; 42%Z] |}
              tracking_42 42 1%positive wf_tracking_42 eq_refl eq_refl)
    as (st' & e & Hrun & _ & Hem & Hne & _).
  exists st'. eexists _, _. split; [exact Hrun|]. split; [exact Hem|].
  split; [reflexivity|exact Hne].
Defined.
End TrackerMore.
